(** * geospatialTracker: location ingestion, geofence containment, battery updates

  A shallow embedding of the server side of the tracker:

  - [shared/schema.ts]: the tables and the insert schemas;
  - [server/storage.ts]: [DatabaseStorage], over in-memory tables;
  - [server/routes.ts]: the handlers of [POST /api/locations],
    [POST /api/locations/sync] and [PUT /api/devices/:id/battery], and the
    helpers [isPointInGeofence], [getDistance] and [toRad].

  JavaScript numbers are IEEE 754 binary64 values, embedded as Rocq's
  primitive floats: additions, products, quotients, square roots and
  comparisons below are the ones the program performs, bit for bit.  The
  functions the language leaves to the host ([Math.sin], [Math.cos],
  [Math.atan2], and [parseFloat] outside plain decimal literals) are the
  fields of a [Runtime].

  The database is a record of tables with the column types of the
  migration: an [integer] column holds a whole number of 32 bits, a
  [numeric(p, s)] column a decimal rounded to [s] fraction digits with at
  most [p - s] digits before the point, and a statement that carries a value
  its column cannot hold is refused and throws.  What the database makes of
  a string that is not a plain decimal literal, and how far a refused insert
  has drawn from a [serial] sequence, are fields of a [Database].  The clock
  is read once per request ([now], in milliseconds). *)

From Stdlib Require Import ZArith List String Ascii Bool Floats Lia DecimalString.
From Stdlib Require Import Sorting.Permutation Sorting.Sorted.
Import ListNotations.

Set Implicit Arguments.
Set Warnings "-register-all".

(** ** JavaScript values and host functions *)
Module JS.

(** What [JSON.parse] yields for a request body. *)
Inductive json : Type :=
| JNull
| JBool (b : bool)
| JNum (n : float)
| JStr (s : string)
| JArr (items : list json)
| JObj (fields : list (string * json)).

(** [body.key] on a parsed object: the last binding of a repeated key
    wins, [None] is [undefined]. *)
Fixpoint field (key : string) (fields : list (string * json)) : option json :=
  match fields with
  | [] => None
  | (k, v) :: rest =>
      match field key rest with
      | Some w => Some w
      | None => if String.eqb key k then Some v else None
      end
  end.

(** [JSON.parse] never produces [NaN]. *)
Fixpoint parsed (v : json) : bool :=
  match v with
  | JNum n => negb (is_nan n)
  | JArr items => forallb parsed items
  | JObj fields => forallb (fun kv => parsed (snd kv)) fields
  | _ => true
  end.

Inductive exn : Type := ZodError | TypeError | DatabaseError.

(** The outcome of an expression that may throw. *)
Inductive result (A : Type) : Type :=
| Return (a : A)
| Throw (e : exn).
Arguments Return {A} a.
Arguments Throw {A} e.

(** The functions ECMAScript leaves implementation-approximated. *)
Class Runtime : Type := {
  Math_sin : float -> float;
  Math_cos : float -> float;
  Math_atan2 : float -> float -> float;
  (** [parseFloat] on a string that is not a plain decimal literal. *)
  parseFloat_other : string -> float
}.

(** [Math.PI], the double nearest to pi. *)
Definition Math_PI : float := 0x1.921fb54442d18p+1%float.

(** [ToBoolean] of a number: false for [+0], [-0] and [NaN]. *)
Definition truthy (n : float) : bool := negb ((n =? 0)%float || is_nan n).

(** [a > b]. *)
Definition gt (a b : float) : bool := (b <? a)%float.

(** [xs[i]] in a numeric context: a missing element is [undefined], which
    [ToNumber] turns into [NaN]. *)
Definition item (xs : list float) (i : nat) : float := nth i xs nan.

(** *** Plain decimal literals

    [sign? digit+ (. digit+)?], read exactly. *)
Definition digit (c : ascii) : option Z :=
  let n := Z.of_nat (nat_of_ascii c) in
  if (48 <=? n)%Z && (n <=? 57)%Z then Some (n - 48)%Z else None.

(** Reads [s] as a run of digits appended to the value [acc]; [None] when
    a character is not a digit. *)
Fixpoint digits (s : string) (acc : Z) : option Z :=
  match s with
  | EmptyString => Some acc
  | String c rest =>
      match digit c with
      | Some d => digits rest (10 * acc + d)%Z
      | None => None
      end
  end.

(** Splits [s] at its first dot. *)
Fixpoint split_dot (s : string) : string * option string :=
  match s with
  | EmptyString => (EmptyString, None)
  | String c rest =>
      if Ascii.eqb c "."%char then (EmptyString, Some rest)
      else let '(whole, frac) := split_dot rest in (String c whole, frac)
  end.

Definition unsigned_literal (s : string) : option (Z * nat) :=
  match split_dot s with
  | (EmptyString, _) => None
  | (whole, None) =>
      match digits whole 0 with Some m => Some (m, 0%nat) | None => None end
  | (_, Some EmptyString) => None
  | (whole, Some frac) =>
      match digits (whole ++ frac) 0 with
      | Some m => Some (m, String.length frac)
      | None => None
      end
  end.

(** [(negative, m, k)]: the literal denotes [m / 10^k], negated when
    [negative]. *)
Definition decimal_literal (s : string) : option (bool * Z * nat) :=
  match s with
  | String "-" rest =>
      match unsigned_literal rest with Some (m, k) => Some (true, m, k) | None => None end
  | String "+" rest =>
      match unsigned_literal rest with Some (m, k) => Some (false, m, k) | None => None end
  | _ =>
      match unsigned_literal s with Some (m, k) => Some (false, m, k) | None => None end
  end.

(** The double nearest to an integer. *)
Definition of_Z (z : Z) : float := SF2Prim (binary_normalize prec emax z 0 false).

(** [parseFloat(s)].  On a plain decimal literal with an integer
    significand below [2^53] and at most 22 fraction digits, both
    [m] and [10^k] are doubles and the correctly rounded quotient is the
    number value of the literal; every other string is left to the host. *)
Definition parseFloat `{Runtime} (s : string) : float :=
  match decimal_literal s with
  | Some (negative, m, k) =>
      if (m <? 2 ^ 53)%Z && (k <=? 22)%nat then
        let v := (of_Z m / of_Z (10 ^ Z.of_nat k))%float in
        if negative then (- v)%float else v
      else parseFloat_other s
  | None => parseFloat_other s
  end.

End JS.
Export JS.

(** ** The geometry helpers of routes.ts *)
Module Geometry.

Local Open Scope float_scope.

Record point : Type := { lat : float; lng : float }.

(** The JSON stored in [geofences.coordinates], at the shapes the handlers
    distinguish: [{type: 'Polygon', coordinates: rings}], where a ring is an
    array of positions and a position an array of numbers;
    [{type: 'Point', coordinates: position, radius?}], with a number for
    the radius when there is one; and any other object, whose [type] is
    neither.  The column is [jsonb] and holds any JSON: on a ring or a
    position that is [null], and on a Point with a radius and without
    [coordinates], the code reads a property off [null] or [undefined] and
    throws a TypeError, as it does on [Polygon []]; those values are not
    among the shapes below. *)
Inductive GeoJSON : Type :=
| Polygon (coordinates : list (list (list float)))
| Point (coordinates : list float) (radius : option float)
| OtherGeometry.

Section WithRuntime.
Context {rt : Runtime}.

Definition toRad (deg : float) : float := deg * (Math_PI / 180).

Definition getDistance (point1 point2 : point) : float :=
  let R := 6371000 in
  let dLat := toRad (lat point2 - lat point1) in
  let dLon := toRad (lng point2 - lng point1) in
  let lat1 := toRad (lat point1) in
  let lat2 := toRad (lat point2) in
  let a := Math_sin (dLat / 2) * Math_sin (dLat / 2) +
           Math_sin (dLon / 2) * Math_sin (dLon / 2) * Math_cos lat1 * Math_cos lat2 in
  let c := 2 * Math_atan2 (sqrt a) (sqrt (1 - a)) in
  R * c.

(** The condition of the [if] in the polygon loop, at indices [i], [j]. *)
Definition crossing (coordinates : list (list float)) (p : point) (i j : nat) : bool :=
  let xi := item (nth i coordinates []) 1 in
  let yi := item (nth i coordinates []) 0 in
  let xj := item (nth j coordinates []) 1 in
  let yj := item (nth j coordinates []) 0 in
  negb (Bool.eqb (gt yi (lat p)) (gt yj (lat p))) &&
  (lng p <? (xj - xi) * (lat p - yi) / (yj - yi) + xi).

(** [for (let i = 0, j = coordinates.length - 1; i < coordinates.length; j = i++)],
    with [steps = coordinates.length - i] iterations left. *)
Fixpoint for_loop (coordinates : list (list float)) (p : point)
         (steps i j : nat) (inside : bool) : bool :=
  match steps with
  | O => inside
  | S steps' =>
      for_loop coordinates p steps' (S i) i
               (if crossing coordinates p i j then negb inside else inside)
  end.

Definition isPointInGeofence (p : point) (geofence : GeoJSON) : result bool :=
  match geofence with
  | Polygon rings =>
      match rings with
      | [] => Throw TypeError (* [coordinates[0].length] on [undefined] *)
      | coordinates :: _ =>
          Return (for_loop coordinates p (List.length coordinates) 0
                           (List.length coordinates - 1)%nat false)
      end
  | Point coordinates (Some radius) =>
      if truthy radius then
        let distance :=
          getDistance p {| lat := item coordinates 1; lng := item coordinates 0 |} in
        Return (distance <=? radius)
      else Return false
  | Point _ None => Return false
  | OtherGeometry => Return false
  end.

End WithRuntime.

End Geometry.
Export Geometry.

(** ** shared/schema.ts *)
Module Schema.

Module Device.
Record t : Type := {
  id : Z;
  name : string;
  deviceId : string;
  userId : Z;
  isActive : bool;
  batteryLevel : option float;
  lastSeen : option Z;
  createdAt : Z
}.
End Device.

Module Geofence.
Record t : Type := {
  id : Z;
  name : string;
  type : string;
  description : option string;
  coordinates : GeoJSON;
  isActive : bool;
  createdBy : Z;
  createdAt : Z;
  expiresAt : option Z
}.
End Geofence.

Module Location.
Record t : Type := {
  id : Z;
  deviceId : float;
  latitude : string;
  longitude : string;
  accuracy : option float;
  timestamp : Z;
  isOfflineRecord : bool;
  syncedAt : option Z
}.
End Location.

Module GeofenceEvent.
Record t : Type := {
  id : Z;
  deviceId : float;
  geofenceId : Z;
  eventType : string;
  latitude : string;
  longitude : string;
  timestamp : Z;
  duration : option float
}.
End GeofenceEvent.

(** [InsertLocation]: a location without [id], [timestamp] and [syncedAt]. *)
Module InsertLocation.
Record t : Type := {
  deviceId : float;
  latitude : string;
  longitude : string;
  accuracy : option float;
  isOfflineRecord : option bool
}.
End InsertLocation.

(** [InsertGeofenceEvent]: an event without [id] and [timestamp]. *)
Module InsertGeofenceEvent.
Record t : Type := {
  deviceId : float;
  geofenceId : Z;
  eventType : string;
  latitude : string;
  longitude : string;
  duration : option float
}.
End InsertGeofenceEvent.

(** A nullable integer column, [z.number().nullable().optional()]. *)
Definition optional_number (v : option json) : result (option float) :=
  match v with
  | None | Some JNull => Return None
  | Some (JNum n) => if is_nan n then Throw ZodError else Return (Some n)
  | Some _ => Throw ZodError
  end.

(** A boolean column with a default, [z.boolean().optional()]. *)
Definition optional_boolean (v : option json) : result (option bool) :=
  match v with
  | None => Return None
  | Some (JBool b) => Return (Some b)
  | Some _ => Throw ZodError
  end.

(** [insertLocationSchema.parse(body)], the schema drizzle-zod derives from
    the [locations] table: [deviceId] a number, [latitude] and [longitude]
    (decimal columns) strings, [accuracy] and [isOfflineRecord] optional;
    unknown keys are dropped. *)
Definition insertLocationSchema (body : json) : result InsertLocation.t :=
  match body with
  | JObj fields =>
      match field "deviceId" fields, field "latitude" fields, field "longitude" fields with
      | Some (JNum device), Some (JStr latitude), Some (JStr longitude) =>
          if is_nan device then Throw ZodError else
          match optional_number (field "accuracy" fields),
                optional_boolean (field "isOfflineRecord" fields) with
          | Return accuracy, Return offline =>
              Return {| InsertLocation.deviceId := device;
                        InsertLocation.latitude := latitude;
                        InsertLocation.longitude := longitude;
                        InsertLocation.accuracy := accuracy;
                        InsertLocation.isOfflineRecord := offline |}
          | _, _ => Throw ZodError
          end
      | _, _, _ => Throw ZodError
      end
  | _ => Throw ZodError
  end.

(** [z.array(insertLocationSchema).parse(body)]. *)
Fixpoint parse_each (items : list json) : result (list InsertLocation.t) :=
  match items with
  | [] => Return []
  | item :: rest =>
      match insertLocationSchema item, parse_each rest with
      | Return l, Return ls => Return (l :: ls)
      | _, _ => Throw ZodError
      end
  end.

Definition insertLocationSchema_array (body : json) : result (list InsertLocation.t) :=
  match body with
  | JArr items => parse_each items
  | _ => Throw ZodError
  end.

End Schema.
Export Schema.

(** ** The database: the column types of the migration *)
Module Postgres.

(** What the source leaves to the database server. *)
Class Database : Type := {
  (** A [numeric(precision, scale)] column given a string that is not a
      plain decimal literal ([1e2], [NaN], a string with blanks, ...): the
      value it holds afterwards, or [None] when it refuses the statement. *)
  numeric_other : nat -> nat -> string -> option string;
  (** How many values of [locations_id_seq] a refused insert of these rows
      has drawn: a sequence does not give back what a failed statement took. *)
  locations_drawn : list InsertLocation.t -> nat;
  (** The same for a refused insert into [geofence_events]. *)
  geofence_events_drawn : InsertGeofenceEvent.t -> nat
}.

(** Whether a double is a whole number. *)
Definition is_integer (x : float) : bool :=
  match Prim2SF x with
  | S754_zero _ => true
  | S754_finite _ m e => (0 <=? e)%Z || (Z.pos m mod 2 ^ (- e) =? 0)%Z
  | _ => false
  end.

(** An [integer] column, or a parameter compared with one, given a
    JavaScript number: a whole number from -2^31 to 2^31 - 1 is held, and
    read back as that number ([-0] as [0]); anything else is refused. *)
Definition integer (x : float) : option float :=
  if is_integer x && (-2147483648 <=? x)%float && (x <=? 2147483647)%float
  then Some (if (x =? 0)%float then 0%float else x)
  else None.

(** A nullable [integer] column. *)
Definition optional_integer (x : option float) : option (option float) :=
  match x with
  | None => Some None
  | Some n => match integer n with Some held => Some (Some held) | None => None end
  end.

(** The decimal digits of a natural number. *)
Definition decimal (n : Z) : string := NilZero.string_of_uint (N.to_uint (Z.to_N n)).

(** [m / 10^k] in units of [10^-scale], rounded half away from zero. *)
Definition round_half_away (scale : nat) (m : Z) (k : nat) : Z :=
  if (k <=? scale)%nat then (m * 10 ^ Z.of_nat (scale - k))%Z
  else ((m + 5 * 10 ^ Z.of_nat (k - scale - 1)) / 10 ^ Z.of_nat (k - scale))%Z.

(** The text of [n] units of [10^-scale]: all [scale] fraction digits, and
    no sign on zero. *)
Definition numeric_out (scale : nat) (negative : bool) (n : Z) : string :=
  let unit := (10 ^ Z.of_nat scale)%Z in
  ((if negative && (0 <? n)%Z then "-" else "") ++
   decimal (n / unit) ++ "." ++ String.substring 1 scale (decimal (unit + n mod unit)))%string.

(** A [numeric(precision, scale)] column given a string.  A plain decimal
    literal of at most 1000 characters is rounded to [scale] fraction digits
    and held when it then has at most [precision] digits, refused otherwise;
    the column gives it back as text.  Every other string is left to the
    database. *)
Definition numeric `{Database} (precision scale : nat) (s : string) : option string :=
  match decimal_literal s with
  | Some (negative, m, k) =>
      if (String.length s <=? 1000)%nat then
        let n := round_half_away scale m k in
        if (n <? 10 ^ Z.of_nat precision)%Z then Some (numeric_out scale negative n) else None
      else numeric_other precision scale s
  | None => numeric_other precision scale s
  end.

(** What a column holds after a statement the database accepted; the value
    given, had it refused. *)
Definition held {A} (column : option A) (given : A) : A :=
  match column with
  | Some value => value
  | None => given
  end.

End Postgres.
Export Postgres.

(** ** server/storage.ts: [DatabaseStorage] *)
Module Storage.

(** The tables, each in insertion order, and the two [serial] sequences the
    handlers draw from. *)
Record Tables : Type := {
  devices : list Device.t;
  geofences : list Geofence.t;
  locations : list Location.t;
  geofenceEvents : list GeofenceEvent.t;
  locations_id_seq : Z;
  geofence_events_id_seq : Z
}.

(** [eq(devices.id, id)] for the number the handler passes. *)
Definition device_is (id : float) (d : Device.t) : bool :=
  (of_Z (Device.id d) =? id)%float.

Definition updateDeviceBattery (now : Z) (id batteryLevel : float) (db : Tables)
  : result unit * Tables :=
  match integer id, integer batteryLevel with
  | Some _, Some level =>
      (Return tt,
       {| devices :=
            map (fun d =>
                   if device_is id d then
                     {| Device.id := Device.id d;
                        Device.name := Device.name d;
                        Device.deviceId := Device.deviceId d;
                        Device.userId := Device.userId d;
                        Device.isActive := Device.isActive d;
                        Device.batteryLevel := Some level;
                        Device.lastSeen := Some now;
                        Device.createdAt := Device.createdAt d |}
                   else d)
                (devices db);
          geofences := geofences db;
          locations := locations db;
          geofenceEvents := geofenceEvents db;
          locations_id_seq := locations_id_seq db;
          geofence_events_id_seq := geofence_events_id_seq db |})
  | _, _ => (Throw DatabaseError, db)
  end.

Definition updateDeviceLastSeen (now : Z) (id : float) (db : Tables) : result unit * Tables :=
  match integer id with
  | Some _ =>
      (Return tt,
       {| devices :=
            map (fun d =>
                   if device_is id d then
                     {| Device.id := Device.id d;
                        Device.name := Device.name d;
                        Device.deviceId := Device.deviceId d;
                        Device.userId := Device.userId d;
                        Device.isActive := Device.isActive d;
                        Device.batteryLevel := Device.batteryLevel d;
                        Device.lastSeen := Some now;
                        Device.createdAt := Device.createdAt d |}
                   else d)
                (devices db);
          geofences := geofences db;
          locations := locations db;
          geofenceEvents := geofenceEvents db;
          locations_id_seq := locations_id_seq db;
          geofence_events_id_seq := geofence_events_id_seq db |})
  | None => (Throw DatabaseError, db)
  end.

(** [is_active AND (expires_at IS NULL OR expires_at > NOW())]. *)
Definition getActiveGeofences (now : Z) (db : Tables) : list Geofence.t :=
  filter (fun g =>
            Geofence.isActive g &&
            match Geofence.expiresAt g with
            | None => true
            | Some expires => (now <? expires)%Z
            end)
         (geofences db).

(** The row an insert into [locations] stores: the next [id], the
    [timestamp] default [now()], [is_offline_record] defaulting to false. *)
Definition location_row (id now : Z) (syncedAt : option Z) (l : InsertLocation.t) : Location.t :=
  {| Location.id := id;
     Location.deviceId := InsertLocation.deviceId l;
     Location.latitude := InsertLocation.latitude l;
     Location.longitude := InsertLocation.longitude l;
     Location.accuracy := InsertLocation.accuracy l;
     Location.timestamp := now;
     Location.isOfflineRecord :=
       match InsertLocation.isOfflineRecord l with Some b => b | None => false end;
     Location.syncedAt := syncedAt |}.

Section WithDatabase.
Context {pg : Database}.

(** The values of a row as the columns of [locations] hold them:
    [device_id] and [accuracy] are [integer], [latitude] is
    [numeric(10, 8)] and [longitude] is [numeric(11, 8)].  [None] when one
    of them does not fit. *)
Definition locations_values (l : InsertLocation.t) : option InsertLocation.t :=
  match integer (InsertLocation.deviceId l),
        numeric 10 8 (InsertLocation.latitude l),
        numeric 11 8 (InsertLocation.longitude l),
        optional_integer (InsertLocation.accuracy l) with
  | Some device, Some latitude, Some longitude, Some accuracy =>
      Some {| InsertLocation.deviceId := device;
              InsertLocation.latitude := latitude;
              InsertLocation.longitude := longitude;
              InsertLocation.accuracy := accuracy;
              InsertLocation.isOfflineRecord := InsertLocation.isOfflineRecord l |}
  | _, _, _, _ => None
  end.

(** The same for the rows of one statement: all of them fit, or the
    statement is refused. *)
Fixpoint all_locations_values (ls : list InsertLocation.t) : option (list InsertLocation.t) :=
  match ls with
  | [] => Some []
  | l :: rest =>
      match locations_values l, all_locations_values rest with
      | Some values, Some others => Some (values :: others)
      | _, _ => None
      end
  end.

(** The tables after a refused insert into [locations]. *)
Definition locations_refused (ls : list InsertLocation.t) (db : Tables) : Tables :=
  {| devices := devices db;
     geofences := geofences db;
     locations := locations db;
     geofenceEvents := geofenceEvents db;
     locations_id_seq := (locations_id_seq db + Z.of_nat (locations_drawn ls))%Z;
     geofence_events_id_seq := geofence_events_id_seq db |}.

Definition createLocation (now : Z) (insertLocation : InsertLocation.t) (db : Tables)
  : result Location.t * Tables :=
  match locations_values insertLocation with
  | Some values =>
      let location := location_row (locations_id_seq db) now None values in
      (Return location,
       {| devices := devices db;
          geofences := geofences db;
          locations := locations db ++ [location];
          geofenceEvents := geofenceEvents db;
          locations_id_seq := (locations_id_seq db + 1)%Z;
          geofence_events_id_seq := geofence_events_id_seq db |})
  | None => (Throw DatabaseError, locations_refused [insertLocation] db)
  end.

(** The rows of one multi-row insert, numbered from [id] on. *)
Fixpoint location_rows (id now : Z) (ls : list InsertLocation.t) : list Location.t :=
  match ls with
  | [] => []
  | l :: rest => location_row id now (Some now) l :: location_rows (id + 1)%Z now rest
  end.

Definition syncOfflineLocations (now : Z) (insertLocations : list InsertLocation.t)
           (db : Tables) : result (list Location.t) * Tables :=
  match insertLocations with
  | [] => (Return [], db)
  | _ =>
      match all_locations_values insertLocations with
      | Some values =>
          let syncedLocations := location_rows (locations_id_seq db) now values in
          (Return syncedLocations,
           {| devices := devices db;
              geofences := geofences db;
              locations := locations db ++ syncedLocations;
              geofenceEvents := geofenceEvents db;
              locations_id_seq :=
                (locations_id_seq db + Z.of_nat (List.length insertLocations))%Z;
              geofence_events_id_seq := geofence_events_id_seq db |})
      | None => (Throw DatabaseError, locations_refused insertLocations db)
      end
  end.

(** The values of a row as the columns of [geofence_events] hold them;
    [geofence_id] comes from a stored geofence. *)
Definition geofence_events_values (e : InsertGeofenceEvent.t) : option InsertGeofenceEvent.t :=
  match integer (InsertGeofenceEvent.deviceId e),
        numeric 10 8 (InsertGeofenceEvent.latitude e),
        numeric 11 8 (InsertGeofenceEvent.longitude e),
        optional_integer (InsertGeofenceEvent.duration e) with
  | Some device, Some latitude, Some longitude, Some duration =>
      Some {| InsertGeofenceEvent.deviceId := device;
              InsertGeofenceEvent.geofenceId := InsertGeofenceEvent.geofenceId e;
              InsertGeofenceEvent.eventType := InsertGeofenceEvent.eventType e;
              InsertGeofenceEvent.latitude := latitude;
              InsertGeofenceEvent.longitude := longitude;
              InsertGeofenceEvent.duration := duration |}
  | _, _, _, _ => None
  end.

Definition createGeofenceEvent (now : Z) (insertEvent : InsertGeofenceEvent.t) (db : Tables)
  : result GeofenceEvent.t * Tables :=
  match geofence_events_values insertEvent with
  | Some values =>
      let event :=
        {| GeofenceEvent.id := geofence_events_id_seq db;
           GeofenceEvent.deviceId := InsertGeofenceEvent.deviceId values;
           GeofenceEvent.geofenceId := InsertGeofenceEvent.geofenceId values;
           GeofenceEvent.eventType := InsertGeofenceEvent.eventType values;
           GeofenceEvent.latitude := InsertGeofenceEvent.latitude values;
           GeofenceEvent.longitude := InsertGeofenceEvent.longitude values;
           GeofenceEvent.timestamp := now;
           GeofenceEvent.duration := InsertGeofenceEvent.duration values |} in
      (Return event,
       {| devices := devices db;
          geofences := geofences db;
          locations := locations db;
          geofenceEvents := geofenceEvents db ++ [event];
          locations_id_seq := locations_id_seq db;
          geofence_events_id_seq := (geofence_events_id_seq db + 1)%Z |})
  | None =>
      (Throw DatabaseError,
       {| devices := devices db;
          geofences := geofences db;
          locations := locations db;
          geofenceEvents := geofenceEvents db;
          locations_id_seq := locations_id_seq db;
          geofence_events_id_seq :=
            (geofence_events_id_seq db + Z.of_nat (geofence_events_drawn insertEvent))%Z |})
  end.

End WithDatabase.

End Storage.
Export Storage.

(** ** server/routes.ts: the handlers *)
Module Routes.

(** What [broadcast] sends to every open socket. *)
Inductive Message : Type :=
| geofence_event (event : GeofenceEvent.t) (geofence : Geofence.t)
| location_update (location : Location.t)
| offline_sync (count : nat)
| battery_update (deviceId batteryLevel : float).

Inductive Body : Type :=
| location_json (location : Location.t)
| synced_json (synced : nat) (locations : list Location.t)
| success_json
| message_json (message : string).

Record Response : Type := { status : Z; body : Body }.

(** The server between two requests: the database and everything broadcast
    so far. *)
Record Server : Type := { db : Tables; sent : list Message }.

(** A handler body: it reads and writes the server and returns or throws;
    what it wrote before a throw stays written. *)
Definition M (A : Type) : Type := Server -> result A * Server.

Definition ret {A} (a : A) : M A := fun s => (Return a, s).

Definition bind {A B} (m : M A) (k : A -> M B) : M B :=
  fun s =>
    match m s with
    | (Return a, s') => k a s'
    | (Throw e, s') => (Throw e, s')
    end.

Notation "x <- m ;; k" := (bind m (fun x => k))
  (at level 61, m at next level, right associativity).
Notation "m ;;; k" := (bind m (fun _ => k))
  (at level 61, right associativity).

(** An expression of the handler evaluated for its value. *)
Definition eval {A} (r : result A) : M A := fun s => (r, s).

(** A storage method that writes: it returns or throws, and leaves the
    tables as the database has them then. *)
Definition call {A} (f : Tables -> result A * Tables) : M A :=
  fun s => let '(r, db') := f (db s) in (r, {| db := db'; sent := sent s |}).

(** A storage method that reads. *)
Definition select {A} (f : Tables -> A) : M A :=
  fun s => (Return (f (db s)), s).

Definition broadcast (data : Message) : M unit :=
  fun s => (Return tt, {| db := db s; sent := sent s ++ [data] |}).

Definition try_catch {A} (m : M A) (handler : exn -> M A) : M A :=
  fun s =>
    match m s with
    | (Return a, s') => (Return a, s')
    | (Throw e, s') => handler e s'
    end.

(** [for (const x of xs) { body }]. *)
Fixpoint for_of {A} (xs : list A) (body : A -> M unit) : M unit :=
  match xs with
  | [] => ret tt
  | x :: rest => body x ;;; for_of rest body
  end.

(** [res.json(b)] and [res.status(code).json({ message })]. *)
Definition res_json (b : Body) : M Response := ret {| status := 200; body := b |}.
Definition res_status (code : Z) (message : string) : M Response :=
  ret {| status := code; body := message_json message |}.

Section Handlers.
Context {rt : Runtime} {pg : Database}.

(** The body of the loop over the active geofences in [POST /api/locations]. *)
Definition check_geofence (now : Z) (locationData : InsertLocation.t) (geofence : Geofence.t)
  : M unit :=
  inside <- eval (isPointInGeofence
                    {| lat := parseFloat (InsertLocation.latitude locationData);
                       lng := parseFloat (InsertLocation.longitude locationData) |}
                    (Geofence.coordinates geofence)) ;;
  if inside then
    event <- call (createGeofenceEvent now
               {| InsertGeofenceEvent.deviceId := InsertLocation.deviceId locationData;
                  InsertGeofenceEvent.geofenceId := Geofence.id geofence;
                  InsertGeofenceEvent.eventType := "entry";
                  InsertGeofenceEvent.latitude := InsertLocation.latitude locationData;
                  InsertGeofenceEvent.longitude := InsertLocation.longitude locationData;
                  InsertGeofenceEvent.duration := None |}) ;;
    broadcast (geofence_event event geofence)
  else ret tt.

(** [app.post("/api/locations", ...)]. *)
Definition post_locations (now : Z) (req_body : json) : M Response :=
  try_catch
    (locationData <- eval (insertLocationSchema req_body) ;;
     location <- call (createLocation now locationData) ;;
     call (updateDeviceLastSeen now (InsertLocation.deviceId locationData)) ;;;
     geofences <- select (getActiveGeofences now) ;;
     for_of geofences (check_geofence now locationData) ;;;
     broadcast (location_update location) ;;;
     res_json (location_json location))
    (fun error =>
       match error with
       | ZodError => res_status 400 "Invalid location data"
       | _ => res_status 500 "Failed to record location"
       end).

(** [app.post("/api/locations/sync", ...)]. *)
Definition post_locations_sync (now : Z) (req_body : json) : M Response :=
  try_catch
    (locationsData <- eval (insertLocationSchema_array req_body) ;;
     locations <- call (syncOfflineLocations now locationsData) ;;
     broadcast (offline_sync (List.length locations)) ;;;
     res_json (synced_json (List.length locations) locations))
    (fun error =>
       match error with
       | ZodError => res_status 400 "Invalid locations data"
       | _ => res_status 500 "Failed to sync locations"
       end).

(** [const { batteryLevel } = req.body]: reading a property of [null]
    throws; any other value without the key gives [undefined]. *)
Definition destructure (key : string) (req_body : json) : result (option json) :=
  match req_body with
  | JNull => Throw TypeError
  | JObj fields => Return (field key fields)
  | _ => Return None
  end.

(** [app.put("/api/devices/:id/battery", ...)], with [id] the value of
    [parseInt(req.params.id)]. *)
Definition put_device_battery (now : Z) (id : float) (req_body : json) : M Response :=
  try_catch
    (batteryLevel <- eval (destructure "batteryLevel" req_body) ;;
     match batteryLevel with
     | Some (JNum level) =>
         if (level <? 0)%float || (100 <? level)%float then
           res_status 400 "Invalid battery level"
         else
           call (updateDeviceBattery now id level) ;;;
           broadcast (battery_update id level) ;;;
           res_json success_json
     | _ => res_status 400 "Invalid battery level"
     end)
    (fun _ => res_status 500 "Failed to update battery").

(** A run of [POST /api/locations] requests, each with the time it is served. *)
Fixpoint ingest_live (reports : list (Z * json)) (s : Server) : Server :=
  match reports with
  | [] => s
  | (now, req_body) :: rest => ingest_live rest (snd (post_locations now req_body s))
  end.

End Handlers.

End Routes.
Export Routes.

(** ** The specification's vocabulary *)
Module Spec.

Local Open Scope float_scope.

(** The events of one (deviceId, geofenceId) pair. *)
Definition pair_events (device : float) (geofence : Z) (events : list GeofenceEvent.t)
  : list GeofenceEvent.t :=
  filter (fun e => (GeofenceEvent.deviceId e =? device) &&
                   (GeofenceEvent.geofenceId e =? geofence)%Z)
         events.

(** Ordering by [occurredAt], the event's [timestamp]; events of one instant
    keep their order of creation. *)
Fixpoint insert_by_time (e : GeofenceEvent.t) (sorted : list GeofenceEvent.t)
  : list GeofenceEvent.t :=
  match sorted with
  | [] => [e]
  | x :: rest =>
      if (GeofenceEvent.timestamp x <? GeofenceEvent.timestamp e)%Z
      then x :: insert_by_time e rest
      else e :: sorted
  end.

Definition by_time (events : list GeofenceEvent.t) : list GeofenceEvent.t :=
  fold_right insert_by_time [] events.

Definition other (eventType : string) : string :=
  if String.eqb eventType "entry" then "exit" else "entry".

Fixpoint alternates_from (expected : string) (events : list GeofenceEvent.t) : bool :=
  match events with
  | [] => true
  | e :: rest =>
      String.eqb (GeofenceEvent.eventType e) expected &&
      alternates_from (other expected) rest
  end.

(** "Strictly alternates Entry, Exit, Entry, Exit, ... starting with Entry". *)
Definition alternates (events : list GeofenceEvent.t) : bool :=
  alternates_from "entry" (by_time events).

(** The crossing test of ray casting with longitude as x and latitude as y,
    for the edge from vertex [vj] to vertex [vi]; a position is
    [[lng, lat]]. *)
Definition crosses (p : point) (vi vj : list float) : bool :=
  let xi := item vi 0 in
  let yi := item vi 1 in
  let xj := item vj 0 in
  let yj := item vj 1 in
  negb (Bool.eqb (gt yi (lat p)) (gt yj (lat p))) &&
  (lng p <? (xj - xi) * (lat p - yi) / (yj - yi) + xi).

(** Every vertex with its predecessor, [previous] for the first. *)
Fixpoint edges_from (previous : list float) (ring : list (list float))
  : list (list float * list float) :=
  match ring with
  | [] => []
  | v :: rest => (v, previous) :: edges_from v rest
  end.

(** The edges of the implicitly closed ring. *)
Definition edges (ring : list (list float)) : list (list float * list float) :=
  edges_from (last ring []) ring.

(** Even-odd rule: the point is inside when the ray crosses an odd number
    of edges. *)
Definition ray_casting (p : point) (ring : list (list float)) : bool :=
  Nat.odd (List.length (filter (fun e => crosses p (fst e) (snd e)) (edges ring))).

(** A position with its two coordinates exchanged. *)
Definition exchanged (position : list float) : list float :=
  [item position 1; item position 0].

(** The great-circle distance by the haversine formula, in doubles:
    [hav theta] is the squared sine of half the angle; with latitudes
    [phi1], [phi2] and the differences [dphi], [dlambda] in radians,
    [a = hav dphi + hav dlambda * cos phi1 * cos phi2] and the distance is
    [radius * (2 * atan2 (sqrt a) (sqrt (1 - a)))].  Products of doubles do
    not associate: they are taken from the left. *)
Section Haversine.
Context {rt : Runtime}.

Definition radians (degrees : float) : float := degrees * (Math_PI / 180).

Definition hav (theta : float) : float := Math_sin (theta / 2) * Math_sin (theta / 2).

Definition haversine (radius : float) (p q : point) : float :=
  let phi1 := radians (lat p) in
  let phi2 := radians (lat q) in
  let dphi := radians (lat q - lat p) in
  let dlambda := radians (lng q - lng p) in
  let a := hav dphi + hav dlambda * Math_cos phi1 * Math_cos phi2 in
  radius * (2 * Math_atan2 (sqrt a) (sqrt (1 - a))).

End Haversine.

End Spec.

(** ** What the program's loops amount to *)

Section Derived.
Context {rt : Runtime} {pg : Database}.

(** The point a report is tested at. *)
Definition reported (locationData : InsertLocation.t) : point :=
  {| lat := parseFloat (InsertLocation.latitude locationData);
     lng := parseFloat (InsertLocation.longitude locationData) |}.

(** The event the handler stores for [geofence], as row [id]: the device
    and the coordinates of the report as the columns of [geofence_events]
    hold them.  The handler reaches this insert after the same values went
    into [locations], whose columns have the same types. *)
Definition entry_event (id now : Z) (locationData : InsertLocation.t) (geofence : Geofence.t)
  : GeofenceEvent.t :=
  {| GeofenceEvent.id := id;
     GeofenceEvent.deviceId :=
       held (integer (InsertLocation.deviceId locationData))
            (InsertLocation.deviceId locationData);
     GeofenceEvent.geofenceId := Geofence.id geofence;
     GeofenceEvent.eventType := "entry";
     GeofenceEvent.latitude :=
       held (numeric 10 8 (InsertLocation.latitude locationData))
            (InsertLocation.latitude locationData);
     GeofenceEvent.longitude :=
       held (numeric 11 8 (InsertLocation.longitude locationData))
            (InsertLocation.longitude locationData);
     GeofenceEvent.timestamp := now;
     GeofenceEvent.duration := None |}.

(** The events one report adds, numbered from [id]: an entry for each
    geofence of [geofences] that contains the point, up to the first geofence
    whose test throws. *)
Fixpoint entries (now : Z) (locationData : InsertLocation.t) (geofences : list Geofence.t)
         (id : Z) : list GeofenceEvent.t :=
  match geofences with
  | [] => []
  | geofence :: rest =>
      match isPointInGeofence (reported locationData) (Geofence.coordinates geofence) with
      | Return true =>
          entry_event id now locationData geofence :: entries now locationData rest (id + 1)%Z
      | Return false => entries now locationData rest id
      | Throw _ => []
      end
  end.

(** The server after the handler stored an entry for [geofence] and
    broadcast it. *)
Definition stored (now : Z) (locationData : InsertLocation.t) (geofence : Geofence.t)
           (s : Server) : Server :=
  let event := entry_event (geofence_events_id_seq (db s)) now locationData geofence in
  {| db := {| devices := devices (db s);
              geofences := Storage.geofences (db s);
              locations := locations (db s);
              geofenceEvents := geofenceEvents (db s) ++ [event];
              locations_id_seq := locations_id_seq (db s);
              geofence_events_id_seq := (geofence_events_id_seq (db s) + 1)%Z |};
     sent := sent s ++ [geofence_event event geofence] |}.

(** Whether the test throws on one of [geofences]. *)
Definition throws (locationData : InsertLocation.t) (geofences : list Geofence.t) : bool :=
  existsb (fun g => match isPointInGeofence (reported locationData) (Geofence.coordinates g) with
                    | Throw _ => true
                    | Return _ => false
                    end)
          geofences.

End Derived.

(** An event without its key and its time. *)
Definition content (e : GeofenceEvent.t) : InsertGeofenceEvent.t :=
  {| InsertGeofenceEvent.deviceId := GeofenceEvent.deviceId e;
     InsertGeofenceEvent.geofenceId := GeofenceEvent.geofenceId e;
     InsertGeofenceEvent.eventType := GeofenceEvent.eventType e;
     InsertGeofenceEvent.latitude := GeofenceEvent.latitude e;
     InsertGeofenceEvent.longitude := GeofenceEvent.longitude e;
     InsertGeofenceEvent.duration := GeofenceEvent.duration e |}.

(** The devices after [updateDeviceLastSeen] for an id the database accepts. *)
Definition seen (now : Z) (id : float) (devices : list Device.t) : list Device.t :=
  map (fun d =>
         if device_is id d then
           {| Device.id := Device.id d;
              Device.name := Device.name d;
              Device.deviceId := Device.deviceId d;
              Device.userId := Device.userId d;
              Device.isActive := Device.isActive d;
              Device.batteryLevel := Device.batteryLevel d;
              Device.lastSeen := Some now;
              Device.createdAt := Device.createdAt d |}
         else d)
      devices.

(** The devices after [updateDeviceBattery] for values the database
    accepts. *)
Definition charged (now : Z) (id level : float) (devices : list Device.t) : list Device.t :=
  map (fun d =>
         if device_is id d then
           {| Device.id := Device.id d;
              Device.name := Device.name d;
              Device.deviceId := Device.deviceId d;
              Device.userId := Device.userId d;
              Device.isActive := Device.isActive d;
              Device.batteryLevel := Some level;
              Device.lastSeen := Some now;
              Device.createdAt := Device.createdAt d |}
         else d)
      devices.

(** Whether the request carries a battery level the handler accepts: a
    number from 0 to 100. *)
Definition valid_level (req_body : json) : bool :=
  match req_body with
  | JObj fields =>
      match field "batteryLevel" fields with
      | Some (JNum level) => (0 <=? level)%float && (level <=? 100)%float
      | _ => false
      end
  | _ => false
  end.

(** What ECMAScript fixes of the host functions the program's distance
    goes through: [Math.sin(+0)] is [+0]; [Math.atan2(+0, x)] is [+0] for
    [x > 0]; and the angle of two square roots, the call the program makes,
    lies in the first quadrant, so it is never below zero. *)
Record conforming (rt : Runtime) : Prop := {
  sin_zero : Math_sin 0 = 0%float;
  atan2_zero : Math_atan2 0 1 = 0%float;
  atan2_sqrt : forall a : float, (Math_atan2 (sqrt a) (sqrt (1 - a)) <? 0)%float = false
}.

(** A property of the program that no host function can change. *)
Definition every_runtime (P : Runtime -> Prop) : Prop := forall rt : Runtime, P rt.

(** A property that neither the host nor the database can change. *)
Definition every_host (P : Runtime -> Database -> Prop) : Prop :=
  forall (rt : Runtime) (pg : Database), P rt pg.

(** A host with the crudest conforming functions, to run examples on. *)
Definition flat : Runtime :=
  {| Math_sin := fun x => x;
     Math_cos := fun _ => 1%float;
     Math_atan2 := fun y _ => abs y;
     parseFloat_other := fun _ => nan |}.


(** A database that refuses every string that is not a plain decimal
    literal, and whose refused inserts draw nothing. *)
Definition strict : Database :=
  {| numeric_other := fun _ _ _ => None;
     locations_drawn := fun _ => 0%nat;
     geofence_events_drawn := fun _ => 0%nat |}.

(** The doubles that are not below zero: zeros, NaN and everything with a
    clear sign bit. *)
Definition nonneg (x : spec_float) : bool :=
  match x with
  | S754_zero _ | S754_nan => true
  | S754_infinity s | S754_finite s _ _ => negb s
  end.

(** ** Example data *)

(** The square with corners (0, 0) and (side, side). *)
Definition square (side : float) : GeoJSON :=
  Polygon [[[0; 0]; [side; 0]; [side; side]; [0; side]]]%float.

Definition fence (coordinates : GeoJSON) : Geofence.t :=
  {| Geofence.id := 1;
     Geofence.name := "yard";
     Geofence.type := "substation";
     Geofence.description := None;
     Geofence.coordinates := coordinates;
     Geofence.isActive := true;
     Geofence.createdBy := 1;
     Geofence.createdAt := 0;
     Geofence.expiresAt := None |}.

Definition tracker : Device.t :=
  {| Device.id := 1;
     Device.name := "tracker";
     Device.deviceId := "device-1";
     Device.userId := 1;
     Device.isActive := true;
     Device.batteryLevel := None;
     Device.lastSeen := None;
     Device.createdAt := 0 |}.

(** A server with one device and one active geofence, nothing recorded yet. *)
Definition server_with (coordinates : GeoJSON) : Server :=
  {| db := {| devices := [tracker];
              geofences := [fence coordinates];
              locations := [];
              geofenceEvents := [];
              locations_id_seq := 1;
              geofence_events_id_seq := 1 |};
     sent := [] |}.

(** A report of device 1; the client's own [timestamp] rides along. *)
Definition report (latitude longitude observedAt : string) : json :=
  JObj [("deviceId", JNum 1); ("latitude", JStr latitude); ("longitude", JStr longitude);
        ("accuracy", JNum 5); ("isOfflineRecord", JBool false);
        ("timestamp", JStr observedAt)]%string.

(** The unit-degree cell with longitudes 10..11 and latitudes 50..51, as GeoJSON
    writes it, and its centre. *)
Definition cell : list (list float) := [[10; 50]; [11; 50]; [11; 51]; [10; 51]]%float.
Definition cell_centre : point := {| lat := 50.5; lng := 10.5 |}.

(** A segment, as a ring of two vertices, and a point on its line. *)
Definition segment : list (list float) := [[0; 0]; [3; 1]]%float.
Definition on_segment : point := {| lat := 1; lng := 0x1.5555555555555p-2 |}.

(** ** server/storage.ts: the queries *)
Module Queries.

(** [ORDER BY key DESC].  Rows with the same key keep the order they had:
    the database leaves their order open. *)
Fixpoint insert_desc {A} (key : A -> Z) (row : A) (sorted : list A) : list A :=
  match sorted with
  | [] => [row]
  | next :: rest =>
      if (key next <=? key row)%Z then row :: sorted
      else next :: insert_desc key row rest
  end.

Definition order_by_desc {A} (key : A -> Z) (rows : list A) : list A :=
  fold_right (insert_desc key) [] rows.

(** A parameter with a default value, [limit = 100]. *)
Definition or_default (limit : option nat) (default : nat) : nat :=
  match limit with
  | Some n => n
  | None => default
  end.


(** [const [row] = await ...; return row || undefined]. *)
Definition getDevice (id : float) (db : Tables) : option Device.t :=
  find (device_is id) (devices db).


Definition getAllGeofences (db : Tables) : list Geofence.t :=
  order_by_desc Geofence.createdAt (geofences db).





(** [gte(timestamp, startDate)] and [lte(timestamp, endDate)]. *)
Definition getGeofenceEventsByDateRange (startDate endDate : Z) (db : Tables)
  : list GeofenceEvent.t :=
  order_by_desc GeofenceEvent.timestamp
    (filter (fun e => (startDate <=? GeofenceEvent.timestamp e)%Z &&
                      (GeofenceEvent.timestamp e <=? endDate)%Z)
            (geofenceEvents db)).

(** A row of [getRecentGeofenceEvents]: the event with its device and its
    geofence. *)
Record Recent : Type := {
  event : GeofenceEvent.t;
  device : Device.t;
  geofence : Geofence.t
}.

(** The two inner joins: an event pairs with every device and every
    geofence of its ids. *)
Definition joined (db : Tables) : list Recent :=
  flat_map (fun e =>
    flat_map (fun d =>
      map (fun g => {| event := e; device := d; geofence := g |})
          (filter (fun g => (GeofenceEvent.geofenceId e =? Geofence.id g)%Z) (geofences db)))
      (filter (device_is (GeofenceEvent.deviceId e)) (devices db)))
    (geofenceEvents db).

Definition getRecentGeofenceEvents (limit : option nat) (db : Tables) : list Recent :=
  firstn (or_default limit 50)
         (order_by_desc (fun r => GeofenceEvent.timestamp (event r)) (joined db)).

End Queries.
Export Queries.

(** Newest first: no row has a greater key than a row before it. *)
Definition newest_first {A} (key : A -> Z) : list A -> Prop :=
  StronglySorted (fun a b => (key b <= key a)%Z).

(** Keys are fresh: every stored event and location has its own id, below
    the next value of its sequence. *)
Definition keys_fresh (db : Tables) : Prop :=
  NoDup (map GeofenceEvent.id (geofenceEvents db))
  /\ Forall (fun e => (GeofenceEvent.id e < geofence_events_id_seq db)%Z) (geofenceEvents db)
  /\ NoDup (map Location.id (locations db))
  /\ Forall (fun l => (Location.id l < locations_id_seq db)%Z) (locations db).

(** The messages the loop over the geofences broadcasts, one per entry of
    [entries], each with its geofence. *)
Fixpoint notices {rt : Runtime} {pg : Database} (now : Z) (locationData : InsertLocation.t)
         (geofences : list Geofence.t) (id : Z) : list Message :=
  match geofences with
  | [] => []
  | geofence :: rest =>
      match isPointInGeofence (reported locationData) (Geofence.coordinates geofence) with
      | Return true =>
          geofence_event (entry_event id now locationData geofence) geofence
          :: notices now locationData rest (id + 1)%Z
      | Return false => notices now locationData rest id
      | Throw _ => []
      end
  end.

(** The integers [first], [first + 1], ..., [count] of them. *)
Fixpoint consecutive (first : Z) (count : nat) : list Z :=
  match count with
  | O => []
  | S count' => first :: consecutive (first + 1)%Z count'
  end.

(** * Facts about doubles *)

Unset Implicit Arguments.

Section Doubles.
Local Open Scope float_scope.

Lemma SFcompare_antisym x y : SFcompare y x = option_map CompOpp (SFcompare x y).
Proof.
  destruct x as [sx|sx| |sx mx ex], y as [sy|sy| |sy my ey]; simpl;
    try destruct sx; try destruct sy; try reflexivity.
  - rewrite (Z.compare_antisym ey ex). destruct (ey ?= ex)%Z; simpl; try reflexivity.
    rewrite CompOpp_involutive. f_equal. exact (Pos.compare_cont_antisym my mx Eq).
  - rewrite (Z.compare_antisym ey ex). destruct (ey ?= ex)%Z; simpl; try reflexivity.
    f_equal. symmetry. exact (Pos.compare_cont_antisym mx my Eq).
Qed.

Lemma SFcompare_refl x : x <> S754_nan -> SFcompare x x = Some Eq.
Proof.
  destruct x as [s|s| |s m e]; simpl; intros H; try congruence; destruct s; try reflexivity.
  all: rewrite Z.compare_refl;
    assert (E : PosDef.Pos.compare_cont Eq m m = Eq) by exact (Pos.compare_refl m);
    rewrite E; reflexivity.
Qed.

Lemma SFcompare_None x y : SFcompare x y = None -> x = S754_nan \/ y = S754_nan.
Proof. destruct x, y; simpl; auto; discriminate. Qed.

Lemma is_nan_spec x : is_nan x = true <-> Prim2SF x = S754_nan.
Proof.
  unfold is_nan. rewrite eqb_spec. unfold SFeqb. split.
  - destruct (Prim2SF x) eqn:E; try reflexivity; rewrite SFcompare_refl; simpl; congruence.
  - intros ->. reflexivity.
Qed.

(** A finite number is a zero or has a significand. *)
Lemma is_finite_spec x :
  is_finite x = true ->
  (exists s, Prim2SF x = S754_zero s) \/ (exists s m e, Prim2SF x = S754_finite s m e).
Proof.
  unfold is_finite, is_infinity. rewrite eqb_spec, abs_spec.
  destruct (Prim2SF x) as [s|s| |s m e] eqn:E.
  - eauto.
  - rewrite orb_true_r. discriminate.
  - apply is_nan_spec in E. rewrite E. discriminate.
  - eauto 6.
Qed.

Lemma of_spec_zero x s : Prim2SF x = S754_zero s -> x = if s then (-0) else 0.
Proof.
  intros E. rewrite <- (SF2Prim_Prim2SF x), E. destruct s; reflexivity.
Qed.

(** [x < y] excludes [y <= x]. *)
Lemma ltb_not_leb x y : (x <? y) = true -> (y <=? x) = false.
Proof.
  rewrite ltb_spec, leb_spec. unfold SFltb, SFleb.
  rewrite (SFcompare_antisym (Prim2SF x) (Prim2SF y)).
  destruct (SFcompare (Prim2SF x) (Prim2SF y)) as [[]|]; simpl; congruence.
Qed.

(** Away from NaN, [x < y] is the negation of [y <= x]. *)
Lemma ltb_negb_leb x y : is_nan x = false -> is_nan y = false -> (x <? y) = negb (y <=? x).
Proof.
  intros Hx Hy. rewrite ltb_spec, leb_spec. unfold SFltb, SFleb.
  rewrite (SFcompare_antisym (Prim2SF x) (Prim2SF y)).
  destruct (SFcompare (Prim2SF x) (Prim2SF y)) as [[]|] eqn:E; simpl; try reflexivity.
  apply SFcompare_None in E. destruct E as [E|E]; apply is_nan_spec in E; congruence.
Qed.

Lemma ltb_zero x : (x <? 0) = negb (nonneg (Prim2SF x)).
Proof.
  rewrite ltb_spec. change (Prim2SF 0) with (S754_zero false).
  destruct (Prim2SF x) as [s|s| |s m e]; try destruct s; reflexivity.
Qed.

Lemma binary_round_aux_sign s m e l :
  match binary_round_aux prec emax s m e l with
  | S754_zero s' | S754_infinity s' | S754_finite s' _ _ => s' = s
  | S754_nan => True
  end.
Proof.
  unfold binary_round_aux.
  destruct (shr_fexp prec emax m e l) as [mrs e'].
  destruct (shr_fexp prec emax _ e' loc_Exact) as [mrs' e''].
  destruct (shr_m mrs'); auto. destruct (e'' <=? emax - prec)%Z; auto.
Qed.

(** A positive factor keeps a number from becoming negative. *)
Lemma mul_nonneg c x :
  (0 <? c) = true -> (x <? 0) = false -> (c * x <? 0) = false.
Proof.
  rewrite !ltb_zero, ltb_spec, mul_spec. change (Prim2SF 0) with (S754_zero false).
  unfold SF64mul.
  destruct (Prim2SF c) as [sc|sc| |sc mc ec]; simpl; try discriminate;
    destruct sc; try discriminate; intros _;
    destruct (Prim2SF x) as [sx|sx| |sx mx ex]; simpl; try reflexivity;
    try (destruct sx; simpl; congruence).
  destruct sx; simpl; try discriminate. intros _.
  pose proof (binary_round_aux_sign false (Z.pos (mc * mx)) (ec + ex) loc_Exact) as H.
  destruct (binary_round_aux _ _ _ _ _ _); simpl; try reflexivity; subst; reflexivity.
Qed.

Lemma not_leb_negative d r : (d <? 0) = false -> (r <? 0) = true -> (d <=? r) = false.
Proof.
  rewrite !ltb_zero, leb_spec. unfold SFleb.
  destruct (Prim2SF d) as [sd|sd| |sd md ed], (Prim2SF r) as [sr|sr| |sr mr er]; simpl;
    try discriminate; try reflexivity;
    try destruct sd; try destruct sr; simpl; try discriminate; reflexivity.
Qed.

Lemma positive_truthy r : (0 <? r) = true -> truthy r = true.
Proof.
  intros H. unfold truthy. assert (Hn : is_nan r = false).
  { destruct (is_nan r) eqn:E; auto. apply is_nan_spec in E.
    rewrite ltb_spec, E in H. discriminate. }
  rewrite Hn, orb_false_r. revert H. rewrite ltb_spec, eqb_spec.
  change (Prim2SF 0) with (S754_zero false).
  destruct (Prim2SF r) as [s|s| |s m e]; try destruct s; unfold SFltb, SFeqb; simpl;
    intros; try discriminate; reflexivity.
Qed.

(** [r <= 0] leaves a zero, which is falsy, or a negative number. *)
Lemma nonpositive_cases r : (r <=? 0) = true -> truthy r = false \/ (r <? 0) = true.
Proof.
  unfold truthy. rewrite leb_spec, ltb_spec, eqb_spec.
  change (Prim2SF 0) with (S754_zero false).
  destruct (Prim2SF r) as [s|s| |s m e]; try destruct s; unfold SFleb, SFltb, SFeqb; simpl;
    intros; try discriminate; auto.
Qed.

Lemma sub_diag x : is_finite x = true -> x - x = 0.
Proof.
  intros H. apply (of_spec_zero (x - x) false). rewrite sub_spec.
  destruct (is_finite_spec x H) as [[s ->]|[s [m [e ->]]]].
  - destruct s; reflexivity.
  - unfold SF64sub, SFsub. rewrite Z.sub_diag. reflexivity.
Qed.

Lemma zero_mul z c :
  is_zero z = true -> is_finite c = true -> is_zero (z * c) = true.
Proof.
  unfold is_zero. rewrite !eqb_spec, mul_spec. intros Hz Hc.
  change (Prim2SF zero) with (S754_zero false) in *.
  destruct (is_finite_spec c Hc) as [[s ->]|[s [m [e ->]]]];
    destruct (Prim2SF z) as [sz|sz| |sz mz ez]; try destruct sz; try discriminate; reflexivity.
Qed.

Lemma zero_add z : is_zero z = true -> 0 + z = 0.
Proof.
  unfold is_zero. rewrite eqb_spec. intros Hz.
  apply (of_spec_zero (0 + z) false). rewrite add_spec.
  change (Prim2SF zero) with (S754_zero false) in *. change (Prim2SF 0) with (S754_zero false).
  destruct (Prim2SF z) as [sz|sz| |sz mz ez]; try destruct sz; try discriminate; reflexivity.
Qed.

End Doubles.

(** * The distance *)

Section Distance.
Context {rt : Runtime}.
Local Open Scope float_scope.

(** At the centre itself the distance is [+0]. *)
Lemma getDistance_centre (c : point) :
  conforming rt ->
  is_finite (lat c) = true -> is_finite (lng c) = true ->
  is_finite (Math_cos (toRad (lat c))) = true ->
  getDistance c c = 0.
Proof.
  intros [Hsin Hatan _] Hlat Hlng Hcos. unfold getDistance.
  rewrite (sub_diag _ Hlat), (sub_diag _ Hlng).
  change (toRad 0 / 2) with 0. rewrite Hsin. change (0 * 0) with 0.
  rewrite (zero_add (0 * _ * _)).
  - change (sqrt 0) with 0. change (sqrt (1 - 0)) with 1. rewrite Hatan. reflexivity.
  - apply zero_mul; [apply zero_mul; [reflexivity|]|]; assumption.
Qed.

(** The distance is never below zero. *)
Lemma getDistance_nonneg (p c : point) :
  conforming rt -> (getDistance p c <? 0) = false.
Proof.
  intros [_ _ Hquad]. unfold getDistance.
  apply mul_nonneg; [reflexivity|]. apply mul_nonneg; [reflexivity|]. apply Hquad.
Qed.

End Distance.

(** * The containment test *)

Section Containment.
Context {rt : Runtime}.
Local Open Scope float_scope.

(** The loop's condition is the specification's crossing test on positions
    whose coordinates are exchanged. *)
Lemma crossing_exchanged coordinates p i j :
  crossing coordinates p i j =
  Spec.crosses p (Spec.exchanged (nth i coordinates [])) (Spec.exchanged (nth j coordinates [])).
Proof. reflexivity. Qed.

Lemma odd_flip (c : bool) (n : nat) :
  Nat.odd (if c then S n else n) = xorb c (Nat.odd n).
Proof.
  destruct c; simpl xorb; [|reflexivity].
  rewrite Nat.odd_succ, <- Nat.negb_odd. reflexivity.
Qed.

(** The loop from index [length before] on, over the edges that remain. *)
Lemma for_loop_edges p after : forall before j inside,
  for_loop (before ++ after) p (List.length after) (List.length before) j inside =
  xorb inside
       (Nat.odd (List.length
          (filter (fun e => Spec.crosses p (fst e) (snd e))
                  (Spec.edges_from (Spec.exchanged (nth j (before ++ after) []))
                                   (map Spec.exchanged after))))).
Proof.
  induction after as [|v rest IH]; intros before j inside.
  - simpl. destruct inside; reflexivity.
  - cbn [List.length for_loop map Spec.edges_from filter fst snd].
    rewrite crossing_exchanged.
    assert (Hv : nth (List.length before) (before ++ v :: rest) [] = v).
    { rewrite app_nth2, Nat.sub_diag; [reflexivity|lia]. }
    rewrite Hv.
    assert (Hsplit : before ++ v :: rest = (before ++ [v]) ++ rest).
    { rewrite <- app_assoc. reflexivity. }
    assert (Hlen : S (List.length before) = List.length (before ++ [v])).
    { rewrite length_app. simpl. lia. }
    pose proof (IH (before ++ [v]) (List.length before)
                   (if Spec.crosses p (Spec.exchanged v)
                                    (Spec.exchanged (nth j (before ++ v :: rest) []))
                    then negb inside else inside)) as Hrest.
    rewrite <- Hsplit, <- Hlen, Hv in Hrest. rewrite Hrest. clear Hrest IH.
    destruct (Spec.crosses p (Spec.exchanged v) _); cbn [List.length].
    + rewrite Nat.odd_succ, <- Nat.negb_odd.
      destruct inside, (Nat.odd _); reflexivity.
    + reflexivity.
Qed.

Lemma nth_last {A} (l : list A) (d : A) : nth (List.length l - 1) l d = last l d.
Proof.
  induction l as [|a [|b l] IH]; try reflexivity.
  change (last (a :: b :: l) d) with (last (b :: l) d). rewrite <- IH.
  simpl. rewrite Nat.sub_0_r. reflexivity.
Qed.

Lemma last_map {A B} (f : A -> B) (l : list A) (a d : A) (d' : B) :
  last (map f (a :: l)) d' = f (last (a :: l) d).
Proof.
  revert a. induction l as [|b l IH]; intros a; [reflexivity|].
  change (last (map f (b :: l)) d' = f (last (b :: l) d)). apply IH.
Qed.

(** What the polygon branch computes: ray casting against the ring with the
    two coordinates of every vertex exchanged. *)
Lemma polygon_branch p ring rest :
  isPointInGeofence p (Polygon (ring :: rest)) =
  Return (Spec.ray_casting p (map Spec.exchanged ring)).
Proof.
  unfold isPointInGeofence, Spec.ray_casting, Spec.edges. f_equal.
  pose proof (for_loop_edges p ring [] (List.length ring - 1) false) as H.
  cbn [app xorb] in H. change (List.length (@nil (list float))) with 0%nat in H.
  rewrite H, nth_last. clear H.
  destruct ring as [|v ring]; [reflexivity|].
  rewrite (last_map Spec.exchanged ring v [] []). reflexivity.
Qed.

End Containment.

Lemma flat_conforming : conforming flat.
Proof.
  split; try reflexivity.
  intros a. cbn [Math_atan2 flat]. rewrite ltb_zero, abs_spec.
  destruct (Prim2SF (sqrt a)); reflexivity.
Qed.

(** C5: the distance [getDistance] computes is the haversine formula on a
    sphere of radius 6 371 000 m, evaluated in doubles, and on a circle
    geofence of radius R > 0 the containment test answers whether that
    distance from the point to the centre is at most R.  In particular the
    centre itself is contained, and a point farther than R is not. *)
Theorem circle_contains_within_radius (rt : Runtime) (p : point)
        (coordinates : list float) (radius : float) :
  (0 <? radius)%float = true ->
  let centre := {| lat := item coordinates 1; lng := item coordinates 0 |} in
  let distance := Spec.haversine 6371000 p centre in
  getDistance p centre = distance
  /\ isPointInGeofence p (Point coordinates (Some radius)) = Return (distance <=? radius)%float
  /\ (conforming rt ->
      is_finite (lat centre) = true -> is_finite (lng centre) = true ->
      is_finite (Math_cos (toRad (lat centre))) = true ->
      Spec.haversine 6371000 centre centre = 0%float
      /\ isPointInGeofence centre (Point coordinates (Some radius)) = Return true)
  /\ ((radius <? distance)%float = true ->
      isPointInGeofence p (Point coordinates (Some radius)) = Return false).
Proof.
  intros Hpos centre distance.
  assert (Hsame : forall q, getDistance q centre = Spec.haversine 6371000 q centre)
    by reflexivity.
  subst distance. rewrite <- !Hsame.
  cbn [isPointInGeofence]. rewrite (positive_truthy radius Hpos).
  fold centre. split; [reflexivity|]. split; [reflexivity|]. split.
  - intros Hrt Hlat Hlng Hcos. rewrite (getDistance_centre centre Hrt Hlat Hlng Hcos).
    split; [reflexivity|].
    f_equal. apply Bool.not_false_is_true. intros Hle.
    rewrite leb_spec in Hle. rewrite ltb_spec in Hpos. revert Hle Hpos.
    change (Prim2SF 0) with (S754_zero false). unfold SFleb, SFltb.
    destruct (Prim2SF radius) as [s|s| |s m e]; try destruct s; simpl; congruence.
  - intros Hfar. rewrite (ltb_not_leb radius _ Hfar). reflexivity.
Qed.

(** A circle of 1000 m around (0, 0), tested at its centre. *)
Lemma circle_contains_within_radius_witness :
  (0 <? 1000)%float = true /\
  isPointInGeofence (rt := flat) {| lat := 0; lng := 0 |} (Point [0; 0]%float (Some 1000%float))
  = Return true.
Proof.
  split; [reflexivity|].
  destruct (circle_contains_within_radius flat {| lat := 0; lng := 0 |} [0; 0]%float 1000
                                          eq_refl) as (_ & _ & H & _).
  apply H; [exact flat_conforming|reflexivity|reflexivity|reflexivity].
Defined.

(** C6: at the centre of the cell with longitudes 10..11 and latitudes
    50..51 the program answers "outside" where ray casting with longitude as
    x and latitude as y answers "inside": the polygon branch reads
    [coordinates[i][0]], the longitude, as the vertex's y and compares it
    with the point's latitude.  On every ring it computes ray casting against
    the ring with the two coordinates of each vertex exchanged. *)
Theorem polygon_axes_exchanged (rt : Runtime) :
  isPointInGeofence cell_centre (Polygon [cell]) = Return false
  /\ Spec.ray_casting cell_centre cell = true
  /\ forall p ring rest,
       isPointInGeofence p (Polygon (ring :: rest)) =
       Return (Spec.ray_casting p (map Spec.exchanged ring)).
Proof.
  split; [reflexivity|]. split; [reflexivity|]. intros. apply polygon_branch.
Qed.

(** C7, as stated, fails: on the ring of the two vertices (0, 0) and (3, 1)
    the test answers "inside" for a point of the segment's line. *)
Lemma two_vertex_ring_contains_point :
  every_runtime (fun rt => isPointInGeofence on_segment (Polygon [segment]) = Return true).
Proof. intros rt. reflexivity. Qed.

(** C7, amended: the containment test is not total and not always false on
    degenerate shapes.  It answers "outside" for every point on a ring of
    fewer than two vertices and on a circle whose radius is zero or negative;
    on a ring of two vertices it answers the exclusive or of the two crossing
    tests of the one segment, which is "inside" for some points; and on a
    polygon without any ring it throws. *)
Theorem degenerate_shapes (rt : Runtime) (p : point) :
  (forall ring rest,
      (List.length ring <= 1)%nat -> isPointInGeofence p (Polygon (ring :: rest)) = Return false)
  /\ (forall v0 v1 rest,
         isPointInGeofence p (Polygon ([v0; v1] :: rest)) =
         Return (xorb (crossing [v0; v1] p 0 1) (crossing [v0; v1] p 1 0)))
  /\ (forall coordinates radius,
         conforming rt -> (radius <=? 0)%float = true ->
         isPointInGeofence p (Point coordinates (Some radius)) = Return false)
  /\ isPointInGeofence p (Polygon []) = Throw TypeError.
Proof.
  repeat split.
  - intros [|v [|w ring]] rest Hlen; simpl in Hlen; try lia; [reflexivity|].
    cbn [isPointInGeofence List.length for_loop Nat.sub].
    unfold crossing. rewrite Bool.eqb_reflx. reflexivity.
  - intros v0 v1 rest. cbn [isPointInGeofence List.length for_loop Nat.sub].
    destruct (crossing [v0; v1] p 0 1), (crossing [v0; v1] p 1 0); reflexivity.
  - intros coordinates radius Hrt Hle. cbn [isPointInGeofence].
    destruct (nonpositive_cases radius Hle) as [-> | Hneg]; [reflexivity|].
    destruct (truthy radius); [|reflexivity].
    rewrite (not_leb_negative _ radius (getDistance_nonneg p _ Hrt) Hneg). reflexivity.
Qed.

(** A ring of one vertex and a circle of radius -5, tested at the vertex. *)
Lemma degenerate_shapes_witness :
  (List.length [[2; 3]%float] <= 1)%nat /\ conforming flat /\ (-5 <=? 0)%float = true /\
  isPointInGeofence (rt := flat) {| lat := 3; lng := 2 |} (Polygon [[[2; 3]%float]])
  = Return false /\
  isPointInGeofence (rt := flat) {| lat := 3; lng := 2 |} (Point [2; 3]%float (Some (-5)%float))
  = Return false.
Proof.
  destruct (degenerate_shapes flat {| lat := 3; lng := 2 |}) as [Hring [_ [Hcircle _]]].
  split; [cbn; lia|]. split; [exact flat_conforming|]. split; [reflexivity|]. split.
  - apply Hring. cbn. lia.
  - apply Hcircle; [exact flat_conforming|reflexivity].
Defined.

(** * The two directions of the distance *)

Section Negation.
Local Open Scope float_scope.












End Negation.






(** * The columns *)

Section Columns.
Local Open Scope float_scope.

Lemma eqb_sym x y : (x =? y) = (y =? x).
Proof.
  rewrite !eqb_spec. unfold SFeqb. rewrite (SFcompare_antisym (Prim2SF x) (Prim2SF y)).
  destruct (SFcompare (Prim2SF x) (Prim2SF y)) as [[]|]; reflexivity.
Qed.

(** A whole number is not NaN. *)
Lemma is_integer_eqb x : is_integer x = true -> (x =? x) = true.
Proof.
  unfold is_integer. rewrite eqb_spec. unfold SFeqb.
  destruct (Prim2SF x) as [s|s| |s m e] eqn:E; try discriminate; intros _;
    rewrite SFcompare_refl; try reflexivity; discriminate.
Qed.

(** What an [integer] column holds is the number it was given, [0] for
    [-0]. *)
Lemma integer_held x value :
  integer x = Some value ->
  is_integer x = true /\ (value =? x) = true /\ value = (if x =? 0 then 0 else x).
Proof.
  unfold integer. destruct (is_integer x) eqn:Hwhole; [|discriminate].
  destruct (-2147483648 <=? x); [|discriminate].
  destruct (x <=? 2147483647); [|discriminate].
  cbn [andb]. intros [= <-]. split; [reflexivity|]. split; [|reflexivity].
  destruct (x =? 0) eqn:Hzero.
  - rewrite eqb_sym. exact Hzero.
  - apply is_integer_eqb. exact Hwhole.
Qed.

End Columns.

(** * The handlers *)

Section Ingestion.
Context {rt : Runtime} {pg : Database}.

(** The schema throws nothing but [ZodError]. *)
Lemma insertLocationSchema_throws body e :
  insertLocationSchema body = Throw e -> e = ZodError.
Proof.
  unfold insertLocationSchema, optional_number, optional_boolean.
  repeat match goal with
  | |- context [match ?x with _ => _ end] => destruct x
  end; congruence.
Qed.

Lemma parse_each_throws items e : parse_each items = Throw e -> e = ZodError.
Proof.
  destruct items as [|item rest]; simpl; [discriminate|].
  destruct (insertLocationSchema item), (parse_each rest); congruence.
Qed.

(** What the columns of [locations] hold of an accepted row. *)
Lemma locations_values_held l values :
  locations_values l = Some values ->
  integer (InsertLocation.deviceId l) = Some (InsertLocation.deviceId values)
  /\ numeric 10 8 (InsertLocation.latitude l) = Some (InsertLocation.latitude values)
  /\ numeric 11 8 (InsertLocation.longitude l) = Some (InsertLocation.longitude values)
  /\ optional_integer (InsertLocation.accuracy l) = Some (InsertLocation.accuracy values)
  /\ InsertLocation.isOfflineRecord values = InsertLocation.isOfflineRecord l.
Proof.
  unfold locations_values.
  destruct (integer _), (numeric 10 8 _), (numeric 11 8 _), (optional_integer _);
    try discriminate.
  intros [= <-]. repeat split.
Qed.

(** The event of a report whose row [locations] accepted is accepted by
    [geofence_events]: its columns have the same types. *)
Lemma createGeofenceEvent_entry now locationData values geofence db :
  locations_values locationData = Some values ->
  createGeofenceEvent now
    {| InsertGeofenceEvent.deviceId := InsertLocation.deviceId locationData;
       InsertGeofenceEvent.geofenceId := Geofence.id geofence;
       InsertGeofenceEvent.eventType := "entry";
       InsertGeofenceEvent.latitude := InsertLocation.latitude locationData;
       InsertGeofenceEvent.longitude := InsertLocation.longitude locationData;
       InsertGeofenceEvent.duration := None |} db =
  (Return (entry_event (geofence_events_id_seq db) now locationData geofence),
   {| devices := devices db;
      geofences := Storage.geofences db;
      locations := locations db;
      geofenceEvents :=
        geofenceEvents db ++ [entry_event (geofence_events_id_seq db) now locationData geofence];
      locations_id_seq := locations_id_seq db;
      geofence_events_id_seq := (geofence_events_id_seq db + 1)%Z |}).
Proof.
  intros Hvalues.
  destruct (locations_values_held _ _ Hvalues) as (Hdevice & Hlatitude & Hlongitude & _).
  unfold createGeofenceEvent, geofence_events_values, entry_event.
  cbn [InsertGeofenceEvent.deviceId InsertGeofenceEvent.latitude InsertGeofenceEvent.longitude
       InsertGeofenceEvent.duration optional_integer].
  rewrite Hdevice, Hlatitude, Hlongitude. reflexivity.
Qed.

(** One turn of the loop, for a report whose row was accepted. *)
Lemma check_geofence_step now locationData values geofence s :
  locations_values locationData = Some values ->
  check_geofence now locationData geofence s =
  match isPointInGeofence (reported locationData) (Geofence.coordinates geofence) with
  | Return true => (Return tt, stored now locationData geofence s)
  | Return false => (Return tt, s)
  | Throw e => (Throw e, s)
  end.
Proof.
  intros Hvalues. unfold check_geofence, bind, eval, call. fold (reported locationData).
  destruct (isPointInGeofence _ _) as [[|]|e]; try reflexivity.
  rewrite (createGeofenceEvent_entry now locationData values geofence (db s) Hvalues).
  reflexivity.
Qed.

Lemma for_of_cons {A} (x : A) (rest : list A) (body : A -> M unit) (s : Server) :
  for_of (x :: rest) body s =
  match body x s with
  | (Return _, s') => for_of rest body s'
  | (Throw e, s') => (Throw e, s')
  end.
Proof. reflexivity. Qed.

(** The test raises nothing but a [TypeError]. *)
Lemma isPointInGeofence_throws p geofence e :
  isPointInGeofence p geofence = Throw e -> e = TypeError.
Proof.
  unfold isPointInGeofence.
  repeat match goal with
  | |- context [match ?x with _ => _ end] => destruct x
  end; congruence.
Qed.

(** The loop over the geofences, for a report whose row was accepted: it
    appends [entries] to the event log, sends one message per entry, touches
    no other table, and throws exactly when the test throws on one of the
    geofences. *)
Lemma check_geofences now locationData values geofences :
  locations_values locationData = Some values ->
  forall s,
  let run := for_of geofences (check_geofence now locationData) s in
  let added := entries now locationData geofences (geofence_events_id_seq (db s)) in
  fst run = (if throws locationData geofences then Throw TypeError else Return tt)
  /\ geofenceEvents (db (snd run)) = geofenceEvents (db s) ++ added
  /\ geofence_events_id_seq (db (snd run)) =
       (geofence_events_id_seq (db s) + Z.of_nat (List.length added))%Z
  /\ devices (db (snd run)) = devices (db s)
  /\ Storage.geofences (db (snd run)) = Storage.geofences (db s)
  /\ locations (db (snd run)) = locations (db s)
  /\ locations_id_seq (db (snd run)) = locations_id_seq (db s)
  /\ List.length (sent (snd run)) = (List.length (sent s) + List.length added)%nat.
Proof.
  intros Hvalues.
  induction geofences as [|g rest IH]; intros s; cbv zeta.
  - cbn. rewrite app_nil_r, Z.add_0_r, Nat.add_0_r. repeat split; reflexivity.
  - rewrite for_of_cons, (check_geofence_step now locationData values g s Hvalues).
    cbn [entries throws existsb].
    destruct (isPointInGeofence (reported locationData) (Geofence.coordinates g))
      as [[|]|e] eqn:Hin; cbv beta iota.
    + destruct (IH (stored now locationData g s)) as (H1 & H2 & H3 & H4 & H5 & H6 & H7 & H8).
      cbn [stored db sent geofenceEvents geofence_events_id_seq devices Storage.geofences
           locations locations_id_seq] in H2, H3, H4, H5, H6, H7, H8.
      cbn [orb]. fold (throws locationData rest).
      repeat split; try assumption.
      * rewrite H2, <- app_assoc. reflexivity.
      * rewrite H3. cbn [List.length]. lia.
      * rewrite H8, length_app. cbn [List.length]. lia.
    + cbn [orb]. exact (IH s).
    + cbn [fst snd app List.length orb]. rewrite app_nil_r, Z.add_0_r, Nat.add_0_r.
      rewrite (isPointInGeofence_throws _ _ _ Hin). repeat split; reflexivity.
Qed.

(** A body the schema refuses: 400, and the server is as it was. *)
Lemma post_locations_rejected now req_body s e :
  insertLocationSchema req_body = Throw e ->
  post_locations now req_body s =
  (Return {| status := 400; body := message_json "Invalid location data" |}, s).
Proof.
  intros H. pose proof (insertLocationSchema_throws _ _ H) as ->.
  unfold post_locations, try_catch, bind, eval. rewrite H. reflexivity.
Qed.

(** A body the schema accepts and the database refuses: 500, no row, no
    message. *)
Lemma post_locations_refused now req_body s locationData :
  insertLocationSchema req_body = Return locationData ->
  locations_values locationData = None ->
  post_locations now req_body s =
  (Return {| status := 500; body := message_json "Failed to record location" |},
   {| db := locations_refused [locationData] (db s); sent := sent s |}).
Proof.
  intros Hparse Hrefused.
  cbv [post_locations try_catch bind eval call res_status ret createLocation].
  rewrite Hparse, Hrefused. reflexivity.
Qed.

(** A body the schema and the database accept: what the handler answers
    and stores. *)
Lemma post_locations_accepted now req_body s locationData values :
  insertLocationSchema req_body = Return locationData ->
  locations_values locationData = Some values ->
  let run := post_locations now req_body s in
  let active := getActiveGeofences now (db s) in
  let added := entries now locationData active (geofence_events_id_seq (db s)) in
  let location := location_row (locations_id_seq (db s)) now None values in
  fst run =
    Return (if throws locationData active
            then {| status := 500; body := message_json "Failed to record location" |}
            else {| status := 200; body := location_json location |})
  /\ geofenceEvents (db (snd run)) = geofenceEvents (db s) ++ added
  /\ locations (db (snd run)) = locations (db s) ++ [location]
  /\ devices (db (snd run)) =
       seen now (InsertLocation.deviceId locationData) (devices (db s))
  /\ Storage.geofences (db (snd run)) = Storage.geofences (db s).
Proof.
  intros H Hvalues. cbv zeta.
  destruct (locations_values_held _ _ Hvalues) as (Hdevice & _).
  cbv [post_locations try_catch bind eval call select ret broadcast res_json res_status
       createLocation updateDeviceLastSeen].
  rewrite H, Hvalues. cbn [db sent devices Storage.geofences]. rewrite Hdevice.
  cbn [fst snd db sent Storage.geofences].
  match goal with
  | |- context [for_of ?gs _ ?s1] =>
      pose proof (check_geofences now locationData values gs Hvalues s1) as Hloop;
      change gs with (getActiveGeofences now (db s)) in *
  end.
  cbv zeta in Hloop.
  cbn [db sent geofenceEvents geofence_events_id_seq devices Storage.geofences
       locations locations_id_seq] in Hloop.
  destruct (for_of _ _ _) as [r s'].
  cbn [fst snd] in Hloop. destruct Hloop as (H1 & H2 & H3 & H4 & H5 & H6 & H7 & H8).
  subst r. destruct (throws locationData _); cbn [fst snd db]; repeat split; assumption.
Qed.

(** Every entry the loop adds belongs to a geofence of the list that
    contains the reported point. *)
Lemma entries_sound now locationData geofences : forall id e,
  In e (entries now locationData geofences id) ->
  exists geofence row,
    In geofence geofences
    /\ isPointInGeofence (reported locationData) (Geofence.coordinates geofence) = Return true
    /\ e = entry_event row now locationData geofence.
Proof.
  induction geofences as [|g rest IH]; intros id e; cbn [entries]; [intros []|].
  destruct (isPointInGeofence (reported locationData) (Geofence.coordinates g))
    as [[|]|x] eqn:Hin.
  - intros [<-|He].
    + exists g, id. repeat split; [left; reflexivity|assumption].
    + destruct (IH _ _ He) as (g' & row & Hg & Hc & ->). exists g', row. repeat split; auto.
      right. assumption.
  - intros He. destruct (IH _ _ He) as (g' & row & Hg & Hc & ->). exists g', row.
    repeat split; auto. right. assumption.
  - intros [].
Qed.

(** When no test throws, every geofence of the list that contains the
    reported point gets its entry. *)
Lemma entries_complete now locationData geofences geofence : forall id,
  throws locationData geofences = false ->
  In geofence geofences ->
  isPointInGeofence (reported locationData) (Geofence.coordinates geofence) = Return true ->
  exists row, In (entry_event row now locationData geofence)
                 (entries now locationData geofences id).
Proof.
  induction geofences as [|g rest IH]; intros id Hthrows Hin Hc; [destruct Hin|].
  cbn [throws existsb entries] in *. apply Bool.orb_false_iff in Hthrows.
  destruct Hthrows as [Hg Hrest]. fold (throws locationData rest) in Hrest.
  destruct Hin as [->|Hin].
  - rewrite Hc. exists id. left. reflexivity.
  - destruct (isPointInGeofence (reported locationData) (Geofence.coordinates g))
      as [[|]|x]; try discriminate.
    + destruct (IH (id + 1)%Z Hrest Hin Hc) as [row Hrow]. exists row. right. assumption.
    + exact (IH id Hrest Hin Hc).
Qed.

(** Apart from keys and times, the entries of a report depend on the
    report and the geofences alone. *)
Lemma entries_content now now' locationData geofences : forall id id',
  map content (entries now locationData geofences id) =
  map content (entries now' locationData geofences id').
Proof.
  induction geofences as [|g rest IH]; intros id id'; cbn [entries]; [reflexivity|].
  destruct (isPointInGeofence (reported locationData) (Geofence.coordinates g)) as [[|]|x];
    cbn [map]; [|apply IH|reflexivity].
  f_equal. apply IH.
Qed.

(** The entries carry the time of the request. *)
Lemma entries_timestamp now locationData geofences : forall id,
  Forall (fun e => GeofenceEvent.timestamp e = now) (entries now locationData geofences id).
Proof.
  induction geofences as [|g rest IH]; intros id; cbn [entries]; [constructor|].
  destruct (isPointInGeofence (reported locationData) (Geofence.coordinates g)) as [[|]|x];
    [|apply IH|constructor].
  constructor; [reflexivity|apply IH].
Qed.

(** The active geofences are read off the [geofences] table alone. *)
Lemma getActiveGeofences_table now db1 db2 :
  Storage.geofences db1 = Storage.geofences db2 ->
  getActiveGeofences now db1 = getActiveGeofences now db2.
Proof. unfold getActiveGeofences. intros ->. reflexivity. Qed.

(** One request, whatever its body: the log grows by entries of active
    geofences that contain the reported point. *)
Lemma post_locations_appends now req_body s :
  exists added,
    geofenceEvents (db (snd (post_locations now req_body s))) = geofenceEvents (db s) ++ added
    /\ Forall (fun e =>
                 exists locationData geofence row,
                   insertLocationSchema req_body = Return locationData
                   /\ In geofence (getActiveGeofences now (db s))
                   /\ isPointInGeofence (reported locationData) (Geofence.coordinates geofence)
                      = Return true
                   /\ e = entry_event row now locationData geofence)
              added.
Proof.
  destruct (insertLocationSchema req_body) as [locationData|x] eqn:Hparse.
  - destruct (locations_values locationData) as [values|] eqn:Hvalues.
    + destruct (post_locations_accepted now req_body s locationData values Hparse Hvalues)
        as (_ & H & _).
      eexists. split; [exact H|]. apply Forall_forall. intros e He.
      destruct (entries_sound _ _ _ _ _ He) as (g & row & Hg & Hc & ->).
      exists locationData, g, row. auto.
    + rewrite (post_locations_refused now req_body s locationData Hparse Hvalues).
      exists []. cbn [snd db locations_refused geofenceEvents]. rewrite app_nil_r.
      split; [reflexivity|constructor].
  - rewrite (post_locations_rejected now req_body s x Hparse). exists [].
    cbn [snd]. rewrite app_nil_r. split; [reflexivity|constructor].
Qed.

End Ingestion.

(** * What a request does to the sequences and to the sockets *)

Section Effects.
Context {rt : Runtime} {pg : Database}.

(** The loop broadcasts [notices], and nothing else. *)
Lemma check_geofences_sent now locationData values geofences :
  locations_values locationData = Some values ->
  forall s,
  sent (snd (for_of geofences (check_geofence now locationData) s)) =
  sent s ++ notices now locationData geofences (geofence_events_id_seq (db s)).
Proof.
  intros Hvalues.
  induction geofences as [|g rest IH]; intros s.
  - cbn. rewrite app_nil_r. reflexivity.
  - rewrite for_of_cons, (check_geofence_step now locationData values g s Hvalues).
    cbn [notices].
    destruct (isPointInGeofence (reported locationData) (Geofence.coordinates g)) as [[|]|e].
    + rewrite IH. cbn [stored sent db geofence_events_id_seq]. rewrite <- app_assoc. reflexivity.
    + apply IH.
    + cbn. rewrite app_nil_r. reflexivity.
Qed.

(** The events of [entries] are numbered consecutively. *)
Lemma entries_ids now locationData geofences : forall id,
  map GeofenceEvent.id (entries now locationData geofences id) =
  consecutive id (List.length (entries now locationData geofences id)).
Proof.
  induction geofences as [|g rest IH]; intros id; cbn [entries]; [reflexivity|].
  destruct (isPointInGeofence (reported locationData) (Geofence.coordinates g)) as [[|]|e];
    [|apply IH|reflexivity].
  cbn [map List.length consecutive entry_event GeofenceEvent.id]. rewrite IH. reflexivity.
Qed.

(** Every notice carries one entry, in the order of [entries]. *)
Lemma notices_entries now locationData geofences : forall id,
  Forall2 (fun e m => exists geofence,
               m = geofence_event e geofence
               /\ GeofenceEvent.geofenceId e = Geofence.id geofence)
          (entries now locationData geofences id)
          (notices now locationData geofences id).
Proof.
  induction geofences as [|g rest IH]; intros id; cbn [entries notices]; [constructor|].
  destruct (isPointInGeofence (reported locationData) (Geofence.coordinates g)) as [[|]|e];
    [|apply IH|constructor].
  constructor; [|apply IH]. exists g. split; reflexivity.
Qed.

(** A body the schema and the database accept: the sequences and the
    messages. *)
Lemma post_locations_effects now req_body s locationData values :
  insertLocationSchema req_body = Return locationData ->
  locations_values locationData = Some values ->
  let run := post_locations now req_body s in
  let active := getActiveGeofences now (db s) in
  let added := entries now locationData active (geofence_events_id_seq (db s)) in
  let location := location_row (locations_id_seq (db s)) now None values in
  geofence_events_id_seq (db (snd run)) =
    (geofence_events_id_seq (db s) + Z.of_nat (List.length added))%Z
  /\ locations_id_seq (db (snd run)) = (locations_id_seq (db s) + 1)%Z
  /\ sent (snd run) =
       sent s ++ notices now locationData active (geofence_events_id_seq (db s))
              ++ (if throws locationData active then [] else [location_update location]).
Proof.
  intros H Hvalues. cbv zeta.
  destruct (locations_values_held _ _ Hvalues) as (Hdevice & _).
  cbv [post_locations try_catch bind eval call select ret broadcast res_json res_status
       createLocation updateDeviceLastSeen].
  rewrite H, Hvalues. cbn [db sent devices Storage.geofences]. rewrite Hdevice.
  cbn [fst snd db sent Storage.geofences].
  match goal with
  | |- context [for_of ?gs _ ?s1] =>
      pose proof (check_geofences now locationData values gs Hvalues s1) as Hloop;
      pose proof (check_geofences_sent now locationData values gs Hvalues s1) as Hsent;
      change gs with (getActiveGeofences now (db s)) in *
  end.
  cbv zeta in Hloop.
  cbn [db sent geofenceEvents geofence_events_id_seq devices Storage.geofences
       locations locations_id_seq] in Hloop, Hsent.
  destruct (for_of _ _ _) as [r s'].
  cbn [fst snd] in Hloop, Hsent. destruct Hloop as (H1 & H2 & H3 & H4 & H5 & H6 & H7 & H8).
  subst r. destruct (throws locationData _); cbn [fst snd db sent];
    rewrite ?Hsent, ?app_nil_r, <- ?app_assoc; repeat split; assumption.
Qed.

End Effects.

(** ** Keys *)

Lemma consecutive_bounds count : forall first x,
  In x (consecutive first count) -> (first <= x < first + Z.of_nat count)%Z.
Proof.
  induction count as [|count IH]; intros first x; cbn [consecutive]; [intros []|].
  intros [<-|Hin]; [lia|]. apply IH in Hin. lia.
Qed.

Lemma consecutive_NoDup count : forall first, NoDup (consecutive first count).
Proof.
  induction count as [|count IH]; intros first; cbn [consecutive]; constructor; [|apply IH].
  intros Hin. apply consecutive_bounds in Hin. lia.
Qed.

Lemma consecutive_length count : forall first, List.length (consecutive first count) = count.
Proof.
  induction count as [|count IH]; intros first; cbn [consecutive List.length];
    [reflexivity|]. rewrite IH. reflexivity.
Qed.

Lemma location_rows_ids now ls : forall id,
  map Location.id (location_rows id now ls) = consecutive id (List.length ls).
Proof.
  induction ls as [|l rest IH]; intros id; [reflexivity|].
  cbn [location_rows map List.length consecutive location_row Location.id].
  rewrite IH. reflexivity.
Qed.


Lemma location_rows_length now ls : forall id,
  List.length (location_rows id now ls) = List.length ls.
Proof.
  induction ls as [|l rest IH]; intros id; [reflexivity|].
  cbn [location_rows List.length]. rewrite IH. reflexivity.
Qed.

(** The database holds as many rows as the statement had. *)
Lemma all_locations_values_length {pg : Database} ls : forall values,
  all_locations_values ls = Some values -> List.length values = List.length ls.
Proof.
  induction ls as [|l rest IH]; intros values; cbn [all_locations_values].
  - intros [= <-]. reflexivity.
  - destruct (locations_values l); [|discriminate].
    destruct (all_locations_values rest) as [others|]; [|discriminate].
    intros [= <-]. cbn [List.length]. rewrite (IH others eq_refl). reflexivity.
Qed.

(** Keys below the sequence stay distinct when the next values of the
    sequence are appended. *)
Lemma fresh_append {A} (key : A -> Z) (rows added : list A) (next : Z) :
  NoDup (map key rows) ->
  Forall (fun r => (key r < next)%Z) rows ->
  map key added = consecutive next (List.length added) ->
  NoDup (map key (rows ++ added))
  /\ Forall (fun r => (key r < next + Z.of_nat (List.length added))%Z) (rows ++ added).
Proof.
  intros Hnodup Hbelow Hadded. split.
  - rewrite map_app, Hadded. apply NoDup_app; [assumption|apply consecutive_NoDup|].
    intros x Hx Hx'. apply consecutive_bounds in Hx'.
    apply in_map_iff in Hx. destruct Hx as (r & <- & Hr).
    pose proof (proj1 (Forall_forall _ _) Hbelow r Hr) as Hlt. cbv beta in Hlt. lia.
  - apply Forall_app. split.
    + eapply Forall_impl; [|exact Hbelow]. cbn. intros r Hr. lia.
    + apply Forall_forall. intros r Hr.
      assert (Hin : In (key r) (consecutive next (List.length added))).
      { rewrite <- Hadded. apply in_map. assumption. }
      apply consecutive_bounds in Hin. lia.
Qed.

(** A sequence that moves on keeps the keys below it. *)
Lemma fresh_drawn {A} (key : A -> Z) (rows : list A) (next : Z) (drawn : nat) :
  Forall (fun r => (key r < next)%Z) rows ->
  Forall (fun r => (key r < next + Z.of_nat drawn)%Z) rows.
Proof. intros H. eapply Forall_impl; [|exact H]. cbn. intros r Hr. lia. Qed.

(** [POST /api/locations] keeps the keys fresh. *)
Lemma post_locations_keys_fresh {rt : Runtime} {pg : Database} now req_body s :
  keys_fresh (db s) -> keys_fresh (db (snd (post_locations now req_body s))).
Proof.
  intros (He & Hes & Hl & Hls).
  destruct (insertLocationSchema req_body) as [locationData|x] eqn:Hparse.
  - destruct (locations_values locationData) as [values|] eqn:Hvalues.
    + destruct (post_locations_accepted now req_body s locationData values Hparse Hvalues)
        as (_ & Hevents & Hlocations & _).
      destruct (post_locations_effects now req_body s locationData values Hparse Hvalues)
        as (Hseq & Hlseq & _).
      unfold keys_fresh. rewrite Hevents, Hlocations, Hseq, Hlseq.
      destruct (fresh_append GeofenceEvent.id (geofenceEvents (db s)) _ _ He Hes
                             (entries_ids now locationData (getActiveGeofences now (db s))
                                          (geofence_events_id_seq (db s)))) as [H1 H2].
      destruct (fresh_append Location.id (locations (db s))
                             [location_row (locations_id_seq (db s)) now None values]
                             _ Hl Hls eq_refl) as [H3 H4].
      repeat split; assumption.
    + rewrite (post_locations_refused now req_body s locationData Hparse Hvalues).
      unfold keys_fresh.
      cbn [snd db locations_refused geofenceEvents locations locations_id_seq
           geofence_events_id_seq].
      repeat split; try assumption. apply fresh_drawn. assumption.
  - rewrite (post_locations_rejected now req_body s x Hparse). repeat split; assumption.
Qed.

(** What [POST /api/locations/sync] does to the server: a batch the schema
    and the database accept, *)
Lemma post_locations_sync_valid {pg : Database} now req_body s locationsData values :
  insertLocationSchema_array req_body = Return locationsData ->
  all_locations_values locationsData = Some values ->
  let rows := location_rows (locations_id_seq (db s)) now values in
  let run := post_locations_sync now req_body s in
  fst run = Return {| status := 200; body := synced_json (List.length locationsData) rows |}
  /\ locations (db (snd run)) = locations (db s) ++ rows
  /\ locations_id_seq (db (snd run)) =
       (locations_id_seq (db s) + Z.of_nat (List.length locationsData))%Z
  /\ geofenceEvents (db (snd run)) = geofenceEvents (db s)
  /\ geofence_events_id_seq (db (snd run)) = geofence_events_id_seq (db s)
  /\ devices (db (snd run)) = devices (db s)
  /\ sent (snd run) = sent s ++ [offline_sync (List.length locationsData)].
Proof.
  intros Hparse Hvalues. cbv zeta.
  pose proof (all_locations_values_length _ _ Hvalues) as Hlength.
  cbv [post_locations_sync try_catch bind eval call ret broadcast res_json res_status].
  rewrite Hparse. destruct locationsData as [|l rest].
  - cbn in Hvalues. injection Hvalues as <-.
    cbn. rewrite app_nil_r, Z.add_0_r. repeat split.
  - unfold syncOfflineLocations. rewrite Hvalues.
    cbn [fst snd db sent geofenceEvents locations locations_id_seq devices
         geofence_events_id_seq].
    rewrite location_rows_length, Hlength. repeat split.
Qed.

(** a batch the schema accepts and the database refuses, *)
Lemma post_locations_sync_refused {pg : Database} now req_body s locationsData :
  insertLocationSchema_array req_body = Return locationsData ->
  all_locations_values locationsData = None ->
  post_locations_sync now req_body s =
  (Return {| status := 500; body := message_json "Failed to sync locations" |},
   {| db := locations_refused locationsData (db s); sent := sent s |}).
Proof.
  intros Hparse Hrefused.
  cbv [post_locations_sync try_catch bind eval call ret broadcast res_json res_status].
  rewrite Hparse. destruct locationsData as [|l rest]; [discriminate|].
  unfold syncOfflineLocations. rewrite Hrefused. reflexivity.
Qed.

(** and a batch the schema refuses. *)
Lemma post_locations_sync_invalid {pg : Database} now req_body s x :
  insertLocationSchema_array req_body = Throw x ->
  post_locations_sync now req_body s =
  (Return {| status := 400; body := message_json "Invalid locations data" |}, s).
Proof.
  intros Hparse.
  assert (x = ZodError) as ->.
  { destruct req_body; try (cbn in Hparse; congruence).
    exact (parse_each_throws _ _ Hparse). }
  cbv [post_locations_sync try_catch bind eval]. rewrite Hparse. reflexivity.
Qed.

(** * Live ingestion *)

(** C1, as stated, fails: two reports inside the same geofence, half a
    minute apart, leave two consecutive entries for the pair (device 1,
    geofence 1). *)
Lemma two_reports_inside_two_entries :
  every_host (fun rt pg =>
    let s := ingest_live [(36000000%Z, report "5" "5" "2024-05-01T10:00:00.000Z");
                          (36030000%Z, report "6" "5" "2024-05-01T10:00:30.000Z")]
                         (server_with (square 10)) in
    map GeofenceEvent.eventType (Spec.pair_events 1 1 (geofenceEvents (db s)))
      = ["entry"; "entry"]%string
    /\ Spec.alternates (Spec.pair_events 1 1 (geofenceEvents (db s))) = false).
Proof. intros rt pg. split; reflexivity. Qed.

(** C1, amended: every event a run of reports through [POST /api/locations]
    creates is an entry, and each accepted report whose point lies in an
    active geofence creates an entry for that geofence whatever was recorded
    before, so consecutive reports inside one geofence give consecutive
    entries. *)
Theorem live_ingestion_creates_entries (rt : Runtime) (pg : Database) :
  (forall reports s,
      exists created,
        geofenceEvents (db (ingest_live reports s)) = geofenceEvents (db s) ++ created
        /\ Forall (fun e => GeofenceEvent.eventType e = "entry"%string) created)
  /\ (forall now req_body s locationData geofence response,
         insertLocationSchema req_body = Return locationData ->
         fst (post_locations now req_body s) = Return response ->
         status response = 200%Z ->
         In geofence (getActiveGeofences now (db s)) ->
         isPointInGeofence (reported locationData) (Geofence.coordinates geofence)
           = Return true ->
         exists created row,
           geofenceEvents (db (snd (post_locations now req_body s)))
             = geofenceEvents (db s) ++ created
           /\ In (entry_event row now locationData geofence) created).
Proof.
  split.
  - induction reports as [|[now req_body] rest IH]; intros s.
    + exists []. cbn. rewrite app_nil_r. split; [reflexivity|constructor].
    + cbn [ingest_live].
      destruct (post_locations_appends now req_body s) as (added & Hadded & Hforall).
      destruct (IH (snd (post_locations now req_body s))) as (created & Hcreated & Hentries).
      exists (added ++ created). split.
      * rewrite Hcreated, Hadded, app_assoc. reflexivity.
      * apply Forall_app. split; [|assumption].
        apply Forall_forall. intros e He.
        destruct (proj1 (Forall_forall _ _) Hforall e He) as (l & g & row & _ & _ & _ & ->).
        reflexivity.
  - intros now req_body s locationData geofence response Hparse Hrun Hok Hactive Hinside.
    destruct (locations_values locationData) as [values|] eqn:Hvalues.
    + destruct (post_locations_accepted now req_body s locationData values Hparse Hvalues)
        as (Hresponse & Hevents & _).
      rewrite Hrun in Hresponse.
      destruct (throws locationData (getActiveGeofences now (db s))) eqn:Hthrows.
      * injection Hresponse as ->. discriminate.
      * destruct (entries_complete now locationData _ geofence
                                   (geofence_events_id_seq (db s)) Hthrows Hactive Hinside)
          as [row Hrow].
        eexists. exists row. split; [exact Hevents|exact Hrow].
    + rewrite (post_locations_refused now req_body s locationData Hparse Hvalues) in Hrun.
      injection Hrun as <-. discriminate.
Qed.

(** A second report inside the square, after a first one inside it. *)
Lemma live_ingestion_creates_entries_witness :
  let req_body := report "6" "5" "2024-05-01T10:00:30.000Z" in
  let s := snd (post_locations (rt := flat) (pg := strict) 36000000
                               (report "5" "5" "2024-05-01T10:00:00.000Z")
                               (server_with (square 10))) in
  exists locationData created row,
    insertLocationSchema req_body = Return locationData
    /\ geofenceEvents (db (snd (post_locations (rt := flat) (pg := strict) 36030000 req_body s)))
       = geofenceEvents (db s) ++ created
    /\ In (entry_event (pg := strict) row 36030000 locationData (fence (square 10))) created.
Proof.
  cbv zeta.
  pose (req_body := report "6" "5" "2024-05-01T10:00:30.000Z").
  pose (s := snd (post_locations (rt := flat) (pg := strict) 36000000
                                 (report "5" "5" "2024-05-01T10:00:00.000Z")
                                 (server_with (square 10)))).
  destruct (insertLocationSchema req_body) as [locationData|] eqn:Hparse; [|discriminate].
  destruct (proj2 (live_ingestion_creates_entries flat strict) 36030000%Z req_body s
                  locationData (fence (square 10))
                  {| status := 200;
                     body := location_json
                               (location_row 2 36030000 None
                                  {| InsertLocation.deviceId := 1;
                                     InsertLocation.latitude := "6.00000000";
                                     InsertLocation.longitude := "5.00000000";
                                     InsertLocation.accuracy := Some 5%float;
                                     InsertLocation.isOfflineRecord := Some false |}) |})
    as (created & row & H1 & H2).
  - exact Hparse.
  - vm_compute. reflexivity.
  - reflexivity.
  - left. reflexivity.
  - injection Hparse as <-. reflexivity.
  - exists locationData, created, row. repeat split; assumption.
Defined.

(** C2, as stated, fails: the same report (same device, same client
    timestamp) submitted twice leaves one entry after the first submission
    and two after the second. *)
Lemma same_report_twice_two_entries :
  every_host (fun rt pg =>
    let req_body := report "5" "5" "2024-05-01T10:00:00.000Z" in
    let s1 := snd (post_locations 36000000 req_body (server_with (square 10))) in
    let s2 := snd (post_locations 36001000 req_body s1) in
    List.length (geofenceEvents (db s1)) = 1%nat
    /\ List.length (geofenceEvents (db s2)) = 2%nat
    /\ List.length (locations (db s2)) = 2%nat).
Proof. intros rt pg. repeat split; reflexivity. Qed.

(** C2, amended: a report submitted twice is processed twice.  While the
    set of active geofences stays the same, the second submission creates
    the same events as the first, under the next keys of the sequence and
    with the time of the second request; and a report the database accepts
    is stored as two location rows, one per request.  A report the database
    refuses is stored by neither request and creates no event. *)
Theorem resubmission_repeats_events (rt : Runtime) (pg : Database) (now1 now2 : Z)
        (req_body : json) (s : Server) :
  getActiveGeofences now1 (db s) = getActiveGeofences now2 (db s) ->
  let s1 := snd (post_locations now1 req_body s) in
  let s2 := snd (post_locations now2 req_body s1) in
  exists first second,
    geofenceEvents (db s1) = geofenceEvents (db s) ++ first
    /\ geofenceEvents (db s2) = geofenceEvents (db s1) ++ second
    /\ map content second = map content first
    /\ Forall (fun e => GeofenceEvent.timestamp e = now2) second
    /\ map GeofenceEvent.id second =
       consecutive (geofence_events_id_seq (db s1)) (List.length second)
    /\ (keys_fresh (db s) ->
        NoDup (map GeofenceEvent.id (geofenceEvents (db s2)))
        /\ NoDup (map Location.id (locations (db s2))))
    /\ match insertLocationSchema req_body with
       | Return locationData =>
           match locations_values locationData with
           | Some values =>
               locations (db s2) =
               locations (db s) ++
               [location_row (locations_id_seq (db s)) now1 None values;
                location_row (locations_id_seq (db s) + 1) now2 None values]
           | None => locations (db s2) = locations (db s) /\ first = [] /\ second = []
           end
       | Throw _ => s2 = s /\ first = [] /\ second = []
       end.
Proof.
  intros Hactive s1 s2. subst s1 s2.
  assert (Hkeys : keys_fresh (db s) ->
            NoDup (map GeofenceEvent.id
                     (geofenceEvents
                        (db (snd (post_locations now2 req_body
                                    (snd (post_locations now1 req_body s)))))))
            /\ NoDup (map Location.id
                        (locations
                           (db (snd (post_locations now2 req_body
                                       (snd (post_locations now1 req_body s)))))))).
  { intros Hfresh.
    destruct (post_locations_keys_fresh now2 req_body _
                (post_locations_keys_fresh now1 req_body s Hfresh)) as (He & _ & Hl & _).
    split; assumption. }
  destruct (insertLocationSchema req_body) as [locationData|x] eqn:Hparse.
  - destruct (locations_values locationData) as [values|] eqn:Hvalues.
    + destruct (post_locations_accepted now1 req_body s locationData values Hparse Hvalues)
        as (_ & H1 & L1 & _ & G1).
      destruct (post_locations_effects now1 req_body s locationData values Hparse Hvalues)
        as (_ & Hseq & _).
      destruct (post_locations_accepted now2 req_body (snd (post_locations now1 req_body s))
                                        locationData values Hparse Hvalues)
        as (_ & H2 & L2 & _ & _).
      eexists. eexists. split; [exact H1|]. split; [exact H2|]. split; [|split; [|split]].
      * rewrite (getActiveGeofences_table now2 _ (db s) G1), <- Hactive.
        apply entries_content.
      * apply entries_timestamp.
      * apply entries_ids.
      * split; [exact Hkeys|]. rewrite L2, L1, Hseq, <- app_assoc. reflexivity.
    + revert Hkeys.
      rewrite (post_locations_refused now1 req_body s locationData Hparse Hvalues).
      cbn [snd].
      rewrite (post_locations_refused now2 req_body _ locationData Hparse Hvalues).
      cbn [snd db locations_refused geofenceEvents locations]. intros Hkeys.
      exists [], []. rewrite !app_nil_r.
      split; [reflexivity|]. split; [reflexivity|]. split; [reflexivity|].
      split; [constructor|]. split; [reflexivity|]. split; [exact Hkeys|]. repeat split.
  - revert Hkeys.
    rewrite (post_locations_rejected now1 req_body s x Hparse). cbn [snd].
    rewrite (post_locations_rejected now2 req_body s x Hparse). cbn [snd]. intros Hkeys.
    exists [], []. rewrite !app_nil_r.
    split; [reflexivity|]. split; [reflexivity|]. split; [reflexivity|].
    split; [constructor|]. split; [reflexivity|]. split; [exact Hkeys|]. repeat split.
Qed.

(** One report inside the square, submitted twice one second apart. *)
Lemma resubmission_repeats_events_witness :
  let req_body := report "5" "5" "2024-05-01T10:00:00.000Z" in
  let s := server_with (square 10) in
  getActiveGeofences 36000000 (db s) = getActiveGeofences 36001000 (db s)
  /\ keys_fresh (db s)
  /\ NoDup (map GeofenceEvent.id
              (geofenceEvents
                 (db (snd (post_locations (rt := flat) (pg := strict) 36001000 req_body
                             (snd (post_locations (rt := flat) (pg := strict) 36000000
                                                  req_body s)))))))
  /\ exists first second,
       geofenceEvents (db (snd (post_locations (rt := flat) (pg := strict) 36000000 req_body s)))
         = geofenceEvents (db s) ++ first
       /\ geofenceEvents
            (db (snd (post_locations (rt := flat) (pg := strict) 36001000 req_body
                        (snd (post_locations (rt := flat) (pg := strict) 36000000
                                             req_body s)))))
          = geofenceEvents
              (db (snd (post_locations (rt := flat) (pg := strict) 36000000 req_body s)))
            ++ second
       /\ map content second = map content first.
Proof.
  cbv zeta.
  assert (Hfresh : keys_fresh (db (server_with (square 10)))).
  { repeat split; constructor. }
  split; [reflexivity|]. split; [exact Hfresh|].
  destruct (resubmission_repeats_events flat strict 36000000 36001000
              (report "5" "5" "2024-05-01T10:00:00.000Z") (server_with (square 10)) eq_refl)
    as (first & second & H1 & H2 & H3 & _ & _ & Hkeys & _).
  split; [exact (proj1 (Hkeys Hfresh))|].
  exists first, second. repeat split; assumption.
Defined.

(** C3, as stated, fails: a device reported inside the geofence at
    10:00:00 and outside it at 10:07:30 leaves its entry and nothing else;
    no exit is recorded. *)
Lemma leaving_creates_no_exit :
  every_host (fun rt pg =>
    let s := ingest_live [(36000000%Z, report "5" "5" "2024-05-01T10:00:00.000Z");
                          (36450000%Z, report "50" "5" "2024-05-01T10:07:30.000Z")]
                         (server_with (square 10)) in
    map (fun e => (GeofenceEvent.eventType e, GeofenceEvent.timestamp e,
                   GeofenceEvent.duration e))
        (geofenceEvents (db s))
    = [("entry"%string, 36000000%Z, None)]).
Proof. intros rt pg. reflexivity. Qed.

(** C3, amended: the handler records no exit and no duration.  Each event a
    report creates is an entry without duration, stamped with the time the
    server handles the request, for an active geofence that contains the
    point reported, as [parseFloat] reads it off the request; a report that
    places the device outside the geofences of some id creates nothing for
    that id. *)
Theorem only_containing_geofences_get_events (rt : Runtime) (pg : Database) (now : Z)
        (req_body : json) (s : Server) :
  exists created,
    geofenceEvents (db (snd (post_locations now req_body s))) = geofenceEvents (db s) ++ created
    /\ Forall (fun e =>
                 GeofenceEvent.eventType e = "entry"%string
                 /\ GeofenceEvent.duration e = None
                 /\ GeofenceEvent.timestamp e = now
                 /\ exists locationData geofence,
                      insertLocationSchema req_body = Return locationData
                      /\ In geofence (getActiveGeofences now (db s))
                      /\ Geofence.id geofence = GeofenceEvent.geofenceId e
                      /\ isPointInGeofence (reported locationData)
                                           (Geofence.coordinates geofence) = Return true)
              created
    /\ (forall locationData id,
           insertLocationSchema req_body = Return locationData ->
           (forall geofence,
               In geofence (getActiveGeofences now (db s)) -> Geofence.id geofence = id ->
               isPointInGeofence (reported locationData) (Geofence.coordinates geofence)
               <> Return true) ->
           Forall (fun e => GeofenceEvent.geofenceId e <> id) created).
Proof.
  destruct (post_locations_appends now req_body s) as (added & Hadded & Hforall).
  exists added. split; [assumption|]. split.
  - apply Forall_forall. intros e He.
    destruct (proj1 (Forall_forall _ _) Hforall e He) as (l & g & row & Hl & Hg & Hc & ->).
    repeat split. exists l, g. repeat split; assumption.
  - intros locationData id Hparse Houtside. apply Forall_forall. intros e He.
    destruct (proj1 (Forall_forall _ _) Hforall e He) as (l & g & row & Hl & Hg & Hc & ->).
    rewrite Hparse in Hl. injection Hl as <-.
    cbn [entry_event GeofenceEvent.geofenceId]. intros Hid.
    exact (Houtside g Hg Hid Hc).
Qed.

(** A report outside the square. *)
Lemma only_containing_geofences_get_events_witness :
  let req_body := report "50" "5" "2024-05-01T10:07:30.000Z" in
  exists locationData,
    insertLocationSchema req_body = Return locationData
    /\ isPointInGeofence (rt := flat) (reported (rt := flat) locationData) (square 10)
       = Return false
    /\ exists created,
         geofenceEvents (db (snd (post_locations (rt := flat) (pg := strict) 36450000 req_body
                                                 (server_with (square 10)))))
         = [] ++ created
         /\ Forall (fun e => GeofenceEvent.geofenceId e <> 1%Z) created.
Proof.
  cbv zeta. eexists. split; [reflexivity|]. split; [reflexivity|].
  destruct (only_containing_geofences_get_events flat strict 36450000
              (report "50" "5" "2024-05-01T10:07:30.000Z") (server_with (square 10)))
    as (created & Hcreated & _ & Houtside).
  exists created. split; [exact Hcreated|].
  apply (Houtside _ 1%Z eq_refl). intros geofence [<-|[]] _. discriminate.
Defined.

(** * Batch synchronisation *)



(** * Validation *)

(** C8, as stated, fails: a report at latitude 95 is accepted with status
    200, stored, and evaluated against the geofences, here creating an
    event. *)
Lemma latitude_out_of_range_is_accepted :
  every_host (fun rt pg =>
    let run := post_locations 36000000 (report "95" "5" "2024-05-01T10:00:00.000Z")
                              (server_with (square 100)) in
    (exists location, fst run = Return {| status := 200; body := location_json location |})
    /\ map Location.latitude (locations (db (snd run))) = ["95.00000000"%string]
    /\ List.length (geofenceEvents (db (snd run))) = 1%nat).
Proof. intros rt pg. repeat split; try reflexivity. eexists. reflexivity. Qed.

(** C8, amended: a report that fails the insert schema, in particular one
    whose latitude or longitude is missing or is not a string, is answered
    with 400 before anything is stored, evaluated or broadcast, and 400 is
    answered in no other case.  The schema does not look at the value of the
    coordinates: any two strings pass it.  A report that passes the schema
    and carries a value a column cannot hold is answered 500, not 400, and
    leaves no row, no event and no message. *)
Theorem schema_failures_are_rejected_first (rt : Runtime) (pg : Database) (now : Z)
        (s : Server) :
  (forall req_body e,
      insertLocationSchema req_body = Throw e ->
      post_locations now req_body s =
      (Return {| status := 400; body := message_json "Invalid location data" |}, s))
  /\ (forall req_body response,
         fst (post_locations now req_body s) = Return response ->
         status response = 400%Z ->
         insertLocationSchema req_body = Throw ZodError /\ snd (post_locations now req_body s) = s)
  /\ (forall fields,
         (forall latitude, field "latitude" fields <> Some (JStr latitude))
         \/ (forall longitude, field "longitude" fields <> Some (JStr longitude)) ->
         insertLocationSchema (JObj fields) = Throw ZodError)
  /\ (forall device latitude longitude,
         is_nan device = false ->
         insertLocationSchema
           (JObj [("deviceId", JNum device); ("latitude", JStr latitude);
                  ("longitude", JStr longitude)]%string)
         = Return {| InsertLocation.deviceId := device;
                     InsertLocation.latitude := latitude;
                     InsertLocation.longitude := longitude;
                     InsertLocation.accuracy := None;
                     InsertLocation.isOfflineRecord := None |})
  /\ (forall req_body locationData,
         insertLocationSchema req_body = Return locationData ->
         locations_values locationData = None ->
         let run := post_locations now req_body s in
         fst run = Return {| status := 500; body := message_json "Failed to record location" |}
         /\ locations (db (snd run)) = locations (db s)
         /\ geofenceEvents (db (snd run)) = geofenceEvents (db s)
         /\ devices (db (snd run)) = devices (db s)
         /\ sent (snd run) = sent s).
Proof.
  split; [|split; [|split; [|split]]].
  - intros req_body e. apply post_locations_rejected.
  - intros req_body response Hrun Hstatus.
    destruct (insertLocationSchema req_body) as [l|x] eqn:Hparse.
    + destruct (locations_values l) as [values|] eqn:Hvalues.
      * destruct (post_locations_accepted now req_body s l values Hparse Hvalues)
          as (Hresponse & _).
        rewrite Hrun in Hresponse.
        destruct (throws l _); injection Hresponse as ->; discriminate.
      * rewrite (post_locations_refused now req_body s l Hparse Hvalues) in Hrun.
        injection Hrun as <-. discriminate.
    + rewrite (insertLocationSchema_throws _ _ Hparse).
      rewrite (post_locations_rejected now req_body s x Hparse). split; reflexivity.
  - intros fields Hmissing. unfold insertLocationSchema.
    destruct (field "deviceId" fields) as [[]|]; try reflexivity;
      destruct (field "latitude" fields) as [[]|]; try reflexivity;
      destruct (field "longitude" fields) as [[]|]; try reflexivity.
    destruct Hmissing as [Hmissing|Hmissing]; exfalso; eapply Hmissing; reflexivity.
  - intros device latitude longitude Hdevice. cbn. rewrite Hdevice. reflexivity.
  - intros req_body locationData Hparse Hvalues. cbv zeta.
    rewrite (post_locations_refused now req_body s locationData Hparse Hvalues).
    repeat split.
Qed.

(** A report without latitude, and one at latitude 100, which
    [numeric(10, 8)] cannot hold. *)
Lemma schema_failures_are_rejected_first_witness :
  let s := server_with (square 10) in
  let req_body := JObj [("deviceId", JNum 1); ("longitude", JStr "5")]%string in
  let beyond := report "100" "5" "2024-05-01T10:00:00.000Z" in
  insertLocationSchema req_body = Throw ZodError
  /\ (forall latitude, field "latitude" [("deviceId", JNum 1); ("longitude", JStr "5")]%string
                       <> Some (JStr latitude))
  /\ post_locations (rt := flat) (pg := strict) 36000000 req_body s =
     (Return {| status := 400; body := message_json "Invalid location data" |}, s)
  /\ is_nan 1 = false
  /\ (exists locationData,
         insertLocationSchema beyond = Return locationData
         /\ locations_values (pg := strict) locationData = None)
  /\ fst (post_locations (rt := flat) (pg := strict) 36000000 beyond s) =
     Return {| status := 500; body := message_json "Failed to record location" |}.
Proof.
  cbv zeta.
  destruct (schema_failures_are_rejected_first flat strict 36000000 (server_with (square 10)))
    as (Hrejected & _ & Hmissing & _ & Hrefused).
  assert (Hno : forall latitude,
             field "latitude" [("deviceId", JNum 1); ("longitude", JStr "5")]%string
             <> Some (JStr latitude)) by (intros latitude; discriminate).
  split; [exact (Hmissing _ (or_introl Hno))|]. split; [exact Hno|].
  split; [exact (Hrejected _ ZodError (Hmissing _ (or_introl Hno)))|].
  split; [reflexivity|]. split; [eexists; split; reflexivity|].
  exact (proj1 (Hrefused (report "100" "5" "2024-05-01T10:00:00.000Z") _ eq_refl eq_refl)).
Defined.

(** * Battery updates *)

Lemma parsed_field key fields n :
  parsed (JObj fields) = true -> field key fields = Some (JNum n) -> is_nan n = false.
Proof.
  cbn [parsed]. induction fields as [|[k v] rest IH]; cbn [forallb field snd]; [discriminate|].
  intros Hparsed. apply andb_prop in Hparsed. destruct Hparsed as [Hv Hrest].
  destruct (field key rest) as [w|].
  - intros Hw. apply IH; assumption.
  - destruct (String.eqb key k); [|discriminate]. intros [= ->].
    cbn [parsed] in Hv. apply Bool.negb_true_iff. assumption.
Qed.

(** The handler, case by case: a body without an acceptable level, *)
Lemma put_device_battery_invalid now id req_body s :
  req_body <> JNull -> valid_level req_body = false -> parsed req_body = true ->
  put_device_battery now id req_body s =
  (Return {| status := 400; body := message_json "Invalid battery level" |}, s).
Proof.
  intros Hnull Hlevel Hparsed.
  cbv [put_device_battery try_catch bind eval call ret broadcast res_json res_status].
  destruct req_body as [|b|n|str|items|fields]; try congruence; try reflexivity.
  cbn [destructure valid_level] in *.
  destruct (field "batteryLevel" fields) as [[|b|level|str|items|fs]|] eqn:Hfield;
    try reflexivity.
  pose proof (parsed_field "batteryLevel" fields level Hparsed Hfield) as Hnan.
  rewrite (ltb_negb_leb level 0 Hnan eq_refl), (ltb_negb_leb 100 level eq_refl Hnan).
  destruct (0 <=? level)%float, (level <=? 100)%float; try discriminate; reflexivity.
Qed.

(** a level the handler and the database accept, *)
Lemma put_device_battery_valid now id req_body s level kept :
  destructure "batteryLevel" req_body = Return (Some (JNum level)) ->
  ((level <? 0)%float || (100 <? level)%float) = false ->
  integer id <> None -> integer level = Some kept ->
  put_device_battery now id req_body s =
  (Return {| status := 200; body := success_json |},
   {| db := {| devices := charged now id kept (devices (db s));
               geofences := Storage.geofences (db s);
               locations := locations (db s);
               geofenceEvents := geofenceEvents (db s);
               locations_id_seq := locations_id_seq (db s);
               geofence_events_id_seq := geofence_events_id_seq (db s) |};
      sent := sent s ++ [Routes.battery_update id level] |})
  /\ updateDeviceBattery now id level (db s) =
     (Return tt,
      {| devices := charged now id kept (devices (db s));
         geofences := Storage.geofences (db s);
         locations := locations (db s);
         geofenceEvents := geofenceEvents (db s);
         locations_id_seq := locations_id_seq (db s);
         geofence_events_id_seq := geofence_events_id_seq (db s) |}).
Proof.
  intros Hlevel Hrange Hid Hkept.
  cbv [put_device_battery try_catch bind eval call ret broadcast res_json res_status
       updateDeviceBattery].
  rewrite Hlevel, Hrange, Hkept. destruct (integer id); [|congruence]. split; reflexivity.
Qed.

(** and a level the handler accepts and the database refuses. *)
Lemma put_device_battery_refused now id req_body s level :
  destructure "batteryLevel" req_body = Return (Some (JNum level)) ->
  ((level <? 0)%float || (100 <? level)%float) = false ->
  integer id = None \/ integer level = None ->
  put_device_battery now id req_body s =
  (Return {| status := 500; body := message_json "Failed to update battery" |}, s).
Proof.
  intros Hlevel Hrange Hrefused.
  cbv [put_device_battery try_catch bind eval call ret broadcast res_json res_status
       updateDeviceBattery].
  rewrite Hlevel, Hrange.
  destruct Hrefused as [-> | ->]; [|destruct (integer id)]; destruct s; reflexivity.
Qed.

(** The range check of the handler is [valid_level]. *)
Lemma valid_level_range req_body level :
  parsed req_body = true ->
  destructure "batteryLevel" req_body = Return (Some (JNum level)) ->
  valid_level req_body = negb ((level <? 0)%float || (100 <? level)%float).
Proof.
  intros Hparsed Hlevel. destruct req_body as [|b|n|str|items|fields]; try discriminate.
  cbn [destructure valid_level] in *. injection Hlevel as Hfield. rewrite Hfield.
  pose proof (parsed_field "batteryLevel" fields level Hparsed Hfield) as Hnan.
  rewrite (ltb_negb_leb level 0 Hnan eq_refl), (ltb_negb_leb 100 level eq_refl Hnan).
  destruct (0 <=? level)%float, (level <=? 100)%float; reflexivity.
Qed.

(** A body that is not [null] has a level to check, or none. *)
Lemma destructure_cases req_body :
  req_body <> JNull ->
  (exists level, destructure "batteryLevel" req_body = Return (Some (JNum level)))
  \/ valid_level req_body = false.
Proof.
  intros Hnull. destruct req_body as [|b|n|str|items|fields]; try congruence; auto.
  cbn [destructure valid_level].
  destruct (field "batteryLevel" fields) as [[|b|level|str|items|fs]|]; eauto.
Qed.

(** C9: for a parsed body other than [null], the handler answers 400
    exactly when [batteryLevel] is not a number or lies outside [0, 100], and
    then it changes nothing; when it answers 200, every device with the given
    id has the new battery level, as the [integer] column holds it, and the
    time of the request as [lastSeen], the other devices being untouched;
    and when it answers 500 nothing has changed. *)
Theorem battery_update (now : Z) (id : float) (req_body : json) (s : Server) :
  parsed req_body = true ->
  req_body <> JNull ->
  let run := put_device_battery now id req_body s in
  exists response,
    fst run = Return response
    /\ (status response = 400%Z <-> valid_level req_body = false)
    /\ (valid_level req_body = false -> snd run = s)
    /\ (status response = 500%Z -> snd run = s)
    /\ (status response = 200%Z ->
        exists level kept,
          destructure "batteryLevel" req_body = Return (Some (JNum level))
          /\ integer level = Some kept
          /\ kept = (if (level =? 0)%float then 0%float else level)
          /\ (kept =? level)%float = true
          /\ updateDeviceBattery now id level (db s) = (Return tt, db (snd run))
          /\ Forall2 (fun before after =>
                        if device_is id before
                        then Device.batteryLevel after = Some kept
                             /\ Device.lastSeen after = Some now
                             /\ Device.id after = Device.id before
                        else after = before)
                     (devices (db s)) (devices (db (snd run)))).
Proof.
  intros Hparsed Hnull run. subst run.
  destruct (destructure_cases req_body Hnull) as [[level Hlevel]|Hinvalid].
  - pose proof (valid_level_range req_body level Hparsed Hlevel) as Hvalid.
    destruct ((level <? 0)%float || (100 <? level)%float) eqn:Hrange; cbn [negb] in Hvalid.
    + rewrite (put_device_battery_invalid now id req_body s Hnull Hvalid Hparsed).
      eexists. split; [reflexivity|]. cbn [fst snd status].
      repeat split; try discriminate; auto.
    + destruct (integer id) as [kept_id|] eqn:Hid;
        [destruct (integer level) as [kept|] eqn:Hkept|].
      * destruct (put_device_battery_valid now id req_body s level kept Hlevel Hrange)
          as [Hrun Hupdate]; [congruence|assumption|].
        rewrite Hrun. eexists. split; [reflexivity|]. cbn [fst snd status db].
        split; [split; [discriminate|congruence]|].
        split; [congruence|]. split; [discriminate|]. intros _.
        exists level, kept. split; [assumption|]. split; [assumption|].
        split; [exact (proj2 (proj2 (integer_held level kept Hkept)))|].
        split; [exact (proj1 (proj2 (integer_held level kept Hkept)))|].
        split; [exact Hupdate|]. cbn [devices]. unfold charged. clear Hrun Hupdate.
        induction (devices (db s)) as [|d rest IH]; cbn [map]; constructor; [|exact IH].
        destruct (device_is id d); repeat split.
      * rewrite (put_device_battery_refused now id req_body s level Hlevel Hrange
                   (or_intror Hkept)).
        eexists. split; [reflexivity|]. cbn [fst snd status].
        split; [split; [discriminate|congruence]|].
        split; [reflexivity|]. split; [reflexivity|]. discriminate.
      * rewrite (put_device_battery_refused now id req_body s level Hlevel Hrange
                   (or_introl Hid)).
        eexists. split; [reflexivity|]. cbn [fst snd status].
        split; [split; [discriminate|congruence]|].
        split; [reflexivity|]. split; [reflexivity|]. discriminate.
  - rewrite (put_device_battery_invalid now id req_body s Hnull Hinvalid Hparsed).
    eexists. split; [reflexivity|]. cbn [fst snd status].
    repeat split; try discriminate; auto.
Qed.

(** Device 1 reporting a battery level of 50. *)
Lemma battery_update_witness :
  let req_body := JObj [("batteryLevel", JNum 50)]%string in
  let s := server_with (square 10) in
  parsed req_body = true /\ req_body <> JNull /\ valid_level req_body = true
  /\ exists response,
       fst (put_device_battery 36000000 1 req_body s) = Return response
       /\ status response = 200%Z
       /\ map (fun d => (Device.batteryLevel d, Device.lastSeen d))
              (devices (db (snd (put_device_battery 36000000 1 req_body s))))
          = [(Some 50%float, Some 36000000%Z)].
Proof.
  cbv zeta. split; [reflexivity|]. split; [discriminate|]. split; [reflexivity|].
  destruct (battery_update 36000000 1 (JObj [("batteryLevel", JNum 50)]%string)
                           (server_with (square 10)) eq_refl)
    as (response & Hrun & _ & _ & _ & Hupdated); [discriminate|].
  assert (Hstatus : status response = 200%Z) by (injection Hrun as <-; reflexivity).
  destruct (Hupdated Hstatus) as (level & kept & _ & _ & _ & _ & _ & _).
  exists response. split; [assumption|]. split; [assumption|]. reflexivity.
Defined.

(** * Further properties of the handlers *)

(** X1: a report the schema accepts is stored as one new location row when
    its values fit their columns, with the next id, the time of the request
    and the values as the columns hold them, whether the answer is 200 or
    500 and whether or not any device has the reported id; when a value does
    not fit, the answer is 500 and nothing is stored or sent. *)
Theorem accepted_report_is_stored (rt : Runtime) (pg : Database) (now : Z) (req_body : json)
        (s : Server) (locationData : InsertLocation.t) :
  insertLocationSchema req_body = Return locationData ->
  let run := post_locations now req_body s in
  match locations_values locationData with
  | Some values =>
      (exists response,
          fst run = Return response /\ (status response = 200 \/ status response = 500)%Z)
      /\ integer (InsertLocation.deviceId locationData) = Some (InsertLocation.deviceId values)
      /\ numeric 10 8 (InsertLocation.latitude locationData)
         = Some (InsertLocation.latitude values)
      /\ numeric 11 8 (InsertLocation.longitude locationData)
         = Some (InsertLocation.longitude values)
      /\ locations (db (snd run)) =
           locations (db s) ++
           [{| Location.id := locations_id_seq (db s);
               Location.deviceId := InsertLocation.deviceId values;
               Location.latitude := InsertLocation.latitude values;
               Location.longitude := InsertLocation.longitude values;
               Location.accuracy := InsertLocation.accuracy values;
               Location.timestamp := now;
               Location.isOfflineRecord :=
                 match InsertLocation.isOfflineRecord locationData with
                 | Some offline => offline
                 | None => false
                 end;
               Location.syncedAt := None |}]
      /\ locations_id_seq (db (snd run)) = (locations_id_seq (db s) + 1)%Z
  | None =>
      fst run = Return {| status := 500; body := message_json "Failed to record location" |}
      /\ locations (db (snd run)) = locations (db s)
      /\ geofenceEvents (db (snd run)) = geofenceEvents (db s)
      /\ sent (snd run) = sent s
  end.
Proof.
  intros Hparse run. subst run.
  destruct (locations_values locationData) as [values|] eqn:Hvalues.
  - destruct (post_locations_accepted now req_body s locationData values Hparse Hvalues)
      as (Hresponse & _ & Hlocations & _).
    destruct (post_locations_effects now req_body s locationData values Hparse Hvalues)
      as (_ & Hseq & _).
    destruct (locations_values_held _ _ Hvalues) as (Hd & Hlat & Hlng & _ & Hoffline).
    split; [|repeat split; try assumption].
    + eexists. split; [exact Hresponse|].
      destruct (throws locationData _); [right|left]; reflexivity.
    + rewrite Hlocations. unfold location_row. rewrite Hoffline. reflexivity.
  - rewrite (post_locations_refused now req_body s locationData Hparse Hvalues).
    repeat split.
Qed.

(** A report of a device nobody registered, and one at longitude 1000. *)
Lemma accepted_report_is_stored_witness :
  let req_body := JObj [("deviceId", JNum 7); ("latitude", JStr "5");
                        ("longitude", JStr "5")]%string in
  let beyond := JObj [("deviceId", JNum 7); ("latitude", JStr "5");
                      ("longitude", JStr "1000")]%string in
  (exists locationData, insertLocationSchema req_body = Return locationData)
  /\ map (fun l => (Location.deviceId l, Location.latitude l))
         (locations (db (snd (post_locations (rt := flat) (pg := strict) 36000000 req_body
                                             (server_with (square 10))))))
     = [(7%float, "5.00000000"%string)]
  /\ (exists locationData, insertLocationSchema beyond = Return locationData)
  /\ locations (db (snd (post_locations (rt := flat) (pg := strict) 36000000 beyond
                                        (server_with (square 10))))) = [].
Proof.
  cbv zeta. split; [eexists; reflexivity|].
  pose proof (accepted_report_is_stored flat strict 36000000
                (JObj [("deviceId", JNum 7); ("latitude", JStr "5");
                       ("longitude", JStr "5")]%string)
                (server_with (square 10)) _ eq_refl) as Hstored.
  pose proof (accepted_report_is_stored flat strict 36000000
                (JObj [("deviceId", JNum 7); ("latitude", JStr "5");
                       ("longitude", JStr "1000")]%string)
                (server_with (square 10)) _ eq_refl) as Hrefused.
  cbv zeta in Hstored, Hrefused.
  destruct Hstored as (_ & _ & _ & _ & Hlocations & _).
  destruct Hrefused as (_ & Hnone & _).
  split; [rewrite Hlocations; reflexivity|]. split; [eexists; reflexivity|exact Hnone].
Defined.

(** X2: [POST /api/locations] never touches the geofences, and of a device
    it changes [lastSeen] alone: to the time of the request on the devices
    whose id is the reported one, when the schema accepts the report and the
    database the row. *)
Theorem report_marks_device_seen (rt : Runtime) (pg : Database) (now : Z) (req_body : json)
        (s : Server) :
  let run := post_locations now req_body s in
  Storage.geofences (db (snd run)) = Storage.geofences (db s)
  /\ Forall2 (fun before after =>
                Device.id after = Device.id before
                /\ Device.name after = Device.name before
                /\ Device.deviceId after = Device.deviceId before
                /\ Device.userId after = Device.userId before
                /\ Device.isActive after = Device.isActive before
                /\ Device.batteryLevel after = Device.batteryLevel before
                /\ Device.createdAt after = Device.createdAt before
                /\ Device.lastSeen after =
                   match insertLocationSchema req_body with
                   | Return locationData =>
                       match locations_values locationData with
                       | Some _ =>
                           if device_is (InsertLocation.deviceId locationData) before
                           then Some now else Device.lastSeen before
                       | None => Device.lastSeen before
                       end
                   | Throw _ => Device.lastSeen before
                   end)
             (devices (db s)) (devices (db (snd run))).
Proof.
  cbv zeta. destruct (insertLocationSchema req_body) as [locationData|x] eqn:Hparse.
  - destruct (locations_values locationData) as [values|] eqn:Hvalues.
    + destruct (post_locations_accepted now req_body s locationData values Hparse Hvalues)
        as (_ & _ & _ & Hdevices & Hgeofences).
      split; [assumption|]. rewrite Hdevices. unfold seen. clear Hdevices.
      induction (devices (db s)) as [|d rest IH]; cbn [map]; constructor; [|exact IH].
      destruct (device_is (InsertLocation.deviceId locationData) d); repeat split.
    + rewrite (post_locations_refused now req_body s locationData Hparse Hvalues).
      cbn [snd db locations_refused Storage.geofences devices]. split; [reflexivity|].
      induction (devices (db s)) as [|d rest IH]; constructor; [repeat split|exact IH].
  - rewrite (post_locations_rejected now req_body s x Hparse). cbn [snd].
    split; [reflexivity|].
    induction (devices (db s)) as [|d rest IH]; constructor; [repeat split|exact IH].
Qed.

(** X3: every event a request stores is broadcast exactly once, in the
    order stored and with its geofence; a [location_update] with the row
    returned to the caller follows when the answer is that row, and nothing
    else is sent.  A refused report stores and sends nothing. *)
Theorem every_event_is_broadcast (rt : Runtime) (pg : Database) (now : Z) (req_body : json)
        (s : Server) :
  let run := post_locations now req_body s in
  exists response created messages,
    fst run = Return response
    /\ geofenceEvents (db (snd run)) = geofenceEvents (db s) ++ created
    /\ Forall2 (fun e m => exists geofence,
                    m = geofence_event e geofence
                    /\ GeofenceEvent.geofenceId e = Geofence.id geofence)
               created messages
    /\ sent (snd run) =
         sent s ++ messages ++
         match body response with
         | location_json location => [location_update location]
         | _ => []
         end
    /\ (status response = 200%Z <-> exists location, body response = location_json location)
    /\ (status response = 400%Z -> created = [] /\ messages = []).
Proof.
  cbv zeta. destruct (insertLocationSchema req_body) as [locationData|x] eqn:Hparse.
  - destruct (locations_values locationData) as [values|] eqn:Hvalues.
    + destruct (post_locations_accepted now req_body s locationData values Hparse Hvalues)
        as (Hresponse & Hevents & _).
      destruct (post_locations_effects now req_body s locationData values Hparse Hvalues)
        as (_ & _ & Hsent).
      eexists. eexists. eexists. split; [exact Hresponse|]. split; [exact Hevents|].
      split; [apply notices_entries|]. rewrite Hsent.
      destruct (throws locationData _); cbn [body status]; repeat split;
        try discriminate; try (intros [location Hl]; discriminate).
      intros _. eexists. reflexivity.
    + rewrite (post_locations_refused now req_body s locationData Hparse Hvalues).
      cbn [fst snd db sent locations_refused geofenceEvents].
      eexists. exists [], []. split; [reflexivity|]. cbn [body status].
      rewrite !app_nil_r. repeat split; try constructor; try discriminate.
      intros [location Hl]. discriminate.
  - rewrite (post_locations_rejected now req_body s x Hparse). cbn [fst snd].
    eexists. exists [], []. split; [reflexivity|]. cbn [body status].
    rewrite !app_nil_r. repeat split; try constructor; try discriminate.
    intros [location Hl]. discriminate.
Qed.

(** [PUT /api/devices/:id/battery] leaves the events, the locations, the
    geofences and the sequences alone. *)
Lemma put_device_battery_tables now id req_body s :
  let run := put_device_battery now id req_body s in
  geofenceEvents (db (snd run)) = geofenceEvents (db s)
  /\ locations (db (snd run)) = locations (db s)
  /\ Storage.geofences (db (snd run)) = Storage.geofences (db s)
  /\ geofence_events_id_seq (db (snd run)) = geofence_events_id_seq (db s)
  /\ locations_id_seq (db (snd run)) = locations_id_seq (db s).
Proof.
  cbv zeta.
  cbv [put_device_battery try_catch bind eval call ret broadcast res_json res_status
       updateDeviceBattery].
  destruct (destructure "batteryLevel" req_body) as [[[| | level | | |]|]|x];
    try (cbn; repeat split; reflexivity).
  destruct ((level <? 0)%float || (100 <? level)%float); [cbn; repeat split; reflexivity|].
  destruct (integer id), (integer level); cbn; repeat split; reflexivity.
Qed.

(** X4: the three handlers keep the keys fresh: after any of them, every
    stored event and every stored location still has an id of its own, below
    the next value of its sequence. *)
Theorem keys_stay_fresh (rt : Runtime) (pg : Database) (now : Z) (req_body : json)
        (s : Server) :
  keys_fresh (db s) ->
  keys_fresh (db (snd (post_locations now req_body s)))
  /\ keys_fresh (db (snd (post_locations_sync now req_body s)))
  /\ forall id, keys_fresh (db (snd (put_device_battery now id req_body s))).
Proof.
  intros Hfresh. split; [exact (post_locations_keys_fresh now req_body s Hfresh)|].
  destruct Hfresh as (He & Hes & Hl & Hls). split.
  - destruct (insertLocationSchema_array req_body) as [locationsData|x] eqn:Hparse.
    + destruct (all_locations_values locationsData) as [values|] eqn:Hvalues.
      * destruct (post_locations_sync_valid now req_body s locationsData values Hparse Hvalues)
          as (_ & Hlocations & Hlseq & Hevents & Hseq & _).
        pose proof (all_locations_values_length _ _ Hvalues) as Hlength.
        unfold keys_fresh. rewrite Hevents, Hlocations, Hseq, Hlseq.
        destruct (fresh_append Location.id (locations (db s))
                               (location_rows (locations_id_seq (db s)) now values)
                               _ Hl Hls) as [H3 H4].
        { rewrite location_rows_ids, location_rows_length. reflexivity. }
        rewrite location_rows_length, Hlength in H4. repeat split; assumption.
      * rewrite (post_locations_sync_refused now req_body s locationsData Hparse Hvalues).
        unfold keys_fresh.
        cbn [snd db locations_refused geofenceEvents locations locations_id_seq
             geofence_events_id_seq].
        repeat split; try assumption. apply fresh_drawn. assumption.
    + rewrite (post_locations_sync_invalid now req_body s x Hparse).
      repeat split; assumption.
  - intros id. destruct (put_device_battery_tables now id req_body s)
      as (Hevents & Hlocations & _ & Hseq & Hlseq).
    unfold keys_fresh. rewrite Hevents, Hlocations, Hseq, Hlseq. repeat split; assumption.
Qed.

(** The empty server, and a report inside its geofence. *)
Lemma keys_stay_fresh_witness :
  keys_fresh (db (server_with (square 10)))
  /\ keys_fresh (db (snd (post_locations (rt := flat) (pg := strict) 36000000
                                          (report "5" "5" "2024-05-01T10:00:00.000Z")
                                          (server_with (square 10))))).
Proof.
  assert (H : keys_fresh (db (server_with (square 10)))).
  { repeat split; constructor. }
  split; [exact H|].
  exact (proj1 (keys_stay_fresh flat strict 36000000
                  (report "5" "5" "2024-05-01T10:00:00.000Z")
                  (server_with (square 10)) H)).
Defined.

(** X5: a geofence that is switched off, or whose expiry time is not after
    the time of the request, is not evaluated: when every geofence of some id
    is in that state, a report creates no event for that id, wherever it
    lies. *)
Theorem inactive_geofences_get_no_event (rt : Runtime) (pg : Database) (now : Z)
        (req_body : json) (s : Server) (id : Z) :
  (forall geofence,
      In geofence (Storage.geofences (db s)) -> Geofence.id geofence = id ->
      Geofence.isActive geofence = false
      \/ exists expires, Geofence.expiresAt geofence = Some expires /\ (expires <= now)%Z) ->
  exists created,
    geofenceEvents (db (snd (post_locations now req_body s))) = geofenceEvents (db s) ++ created
    /\ Forall (fun e => GeofenceEvent.geofenceId e <> id) created.
Proof.
  intros Hoff. destruct (post_locations_appends now req_body s) as (added & Hadded & Hforall).
  exists added. split; [assumption|]. apply Forall_forall. intros e He.
  destruct (proj1 (Forall_forall _ _) Hforall e He) as (l & g & row & _ & Hg & _ & ->).
  cbn [entry_event GeofenceEvent.geofenceId]. intros Hid.
  unfold getActiveGeofences in Hg. apply filter_In in Hg. destruct Hg as [Hin Hactive].
  apply andb_prop in Hactive. destruct Hactive as [Hon Hlive].
  destruct (Hoff g Hin Hid) as [Hfalse|(expires & Hexpires & Hpast)]; [congruence|].
  rewrite Hexpires in Hlive. apply Z.ltb_lt in Hlive. lia.
Qed.

(** The geofence of the example, expired at the time of a report inside it. *)
Lemma inactive_geofences_get_no_event_witness :
  let expired :=
    {| Geofence.id := 1; Geofence.name := "yard"; Geofence.type := "substation";
       Geofence.description := None; Geofence.coordinates := square 10;
       Geofence.isActive := true; Geofence.createdBy := 1; Geofence.createdAt := 0;
       Geofence.expiresAt := Some 36000000%Z |} in
  let s := {| db := {| devices := [tracker]; geofences := [expired]; locations := [];
                       geofenceEvents := []; locations_id_seq := 1;
                       geofence_events_id_seq := 1 |};
              sent := [] |} in
  geofenceEvents
    (db (snd (post_locations (rt := flat) (pg := strict) 36000000
                             (report "5" "5" "2024-05-01T10:00:00.000Z") s))) = [].
Proof.
  cbv zeta.
  match goal with
  | |- geofenceEvents (db (snd (post_locations _ ?b ?s))) = _ =>
      destruct (inactive_geofences_get_no_event flat strict 36000000 b s 1)
        as (created & H & _)
  end.
  - intros g [<-|[]] _. right. exists 36000000%Z. split; [reflexivity|lia].
  - reflexivity.
Defined.

(** X6: no exception escapes a handler: each of the three answers 200, 400
    or 500.  [POST /api/locations/sync] answers 500 exactly when the schema
    accepts the batch and the database refuses a row of it;
    [PUT /api/devices/:id/battery] answers 500 exactly on a [null] body and
    on a level within [0, 100] when the database refuses the id or the
    level as an [integer]. *)
Theorem handlers_always_answer (rt : Runtime) (pg : Database) (now : Z) (req_body : json)
        (s : Server) :
  (exists response,
      fst (post_locations now req_body s) = Return response
      /\ (status response = 200 \/ status response = 400 \/ status response = 500)%Z)
  /\ (exists response,
         fst (post_locations_sync now req_body s) = Return response
         /\ (status response = 200 \/ status response = 400 \/ status response = 500)%Z
         /\ (status response = 500%Z <->
             exists locationsData,
               insertLocationSchema_array req_body = Return locationsData
               /\ all_locations_values locationsData = None))
  /\ (forall id, exists response,
         fst (put_device_battery now id req_body s) = Return response
         /\ (status response = 200 \/ status response = 400 \/ status response = 500)%Z
         /\ (status response = 500%Z <->
             req_body = JNull
             \/ exists level,
                  destructure "batteryLevel" req_body = Return (Some (JNum level))
                  /\ ((level <? 0)%float || (100 <? level)%float) = false
                  /\ (integer id = None \/ integer level = None))).
Proof.
  split; [|split].
  - destruct (insertLocationSchema req_body) as [locationData|x] eqn:Hparse.
    + destruct (locations_values locationData) as [values|] eqn:Hvalues.
      * destruct (post_locations_accepted now req_body s locationData values Hparse Hvalues)
          as (H & _).
        eexists. split; [exact H|]. destruct (throws locationData _); cbn; auto.
      * rewrite (post_locations_refused now req_body s locationData Hparse Hvalues).
        eexists. split; [reflexivity|]. cbn. auto.
    + rewrite (post_locations_rejected now req_body s x Hparse). eexists.
      split; [reflexivity|]. cbn. auto.
  - destruct (insertLocationSchema_array req_body) as [locationsData|x] eqn:Hparse.
    + destruct (all_locations_values locationsData) as [values|] eqn:Hvalues.
      * destruct (post_locations_sync_valid now req_body s locationsData values Hparse Hvalues)
          as (H & _).
        eexists. split; [exact H|]. cbn [status]. split; [auto|]. split; [discriminate|].
        intros (ls & [= <-] & Hnone). congruence.
      * rewrite (post_locations_sync_refused now req_body s locationsData Hparse Hvalues).
        eexists. split; [reflexivity|]. cbn [status]. split; [auto|].
        split; [|reflexivity]. intros _. exists locationsData. split; [reflexivity|assumption].
    + rewrite (post_locations_sync_invalid now req_body s x Hparse). eexists.
      split; [reflexivity|]. cbn [status]. split; [auto|]. split; [discriminate|].
      intros (ls & Hls & _). discriminate.
  - intros id.
    cbv [put_device_battery try_catch bind eval call ret broadcast res_json res_status
         updateDeviceBattery].
    destruct req_body as [|b|n|str|items|fields]; cbn [destructure];
      try (eexists; split; [reflexivity|]; cbn [status];
           split; [auto|split; [discriminate|]];
           intros [Hnull|(level & Hlevel & _)]; discriminate).
    + eexists. split; [reflexivity|]. cbn [status]. split; [auto|]. split; auto.
    + destruct (field "batteryLevel" fields) as [[| | level | | |]|];
        try (eexists; split; [reflexivity|]; cbn [status];
             split; [auto|split; [discriminate|]];
             intros [Hnull|(level' & Hlevel & _)]; discriminate).
      destruct ((level <? 0)%float || (100 <? level)%float) eqn:Hrange.
      * eexists. split; [reflexivity|]. cbn [status]. split; [auto|]. split; [discriminate|].
        intros [Hnull|(level' & [= <-] & Hrange' & _)]; congruence.
      * destruct (integer id) eqn:Hid; [destruct (integer level) eqn:Hkept|].
        -- eexists. split; [reflexivity|]. cbn [status]. split; [auto|].
           split; [discriminate|].
           intros [Hnull|(level' & [= <-] & _ & [H|H])]; congruence.
        -- eexists. split; [reflexivity|]. cbn [status]. split; [auto|].
           split; [|reflexivity]. intros _. right. exists level. auto.
        -- eexists. split; [reflexivity|]. cbn [status]. split; [auto|].
           split; [|reflexivity]. intros _. right. exists level. auto.
Qed.

(** ** Batches *)

Lemma parse_each_invalid items item x :
  In item items -> insertLocationSchema item = Throw x ->
  parse_each items = Throw ZodError.
Proof.
  induction items as [|first rest IH]; intros Hin Hbad; [destruct Hin|].
  cbn [parse_each]. destruct Hin as [->|Hin].
  - rewrite Hbad. reflexivity.
  - rewrite (IH Hin Hbad). destruct (insertLocationSchema first); reflexivity.
Qed.

(** X7: a batch is refused whole.  When the body is not an array, or one
    of its reports fails the schema, the answer is 400 and none of the
    reports is stored, the valid ones included; nothing is broadcast. *)
Theorem invalid_batch_stores_nothing (pg : Database) (now : Z) (s : Server) :
  (forall items item x,
      In item items -> insertLocationSchema item = Throw x ->
      post_locations_sync now (JArr items) s =
      (Return {| status := 400; body := message_json "Invalid locations data" |}, s))
  /\ (forall req_body,
         (forall items, req_body <> JArr items) ->
         post_locations_sync now req_body s =
         (Return {| status := 400; body := message_json "Invalid locations data" |}, s)).
Proof.
  split.
  - intros items item x Hin Hbad. apply (post_locations_sync_invalid _ _ _ ZodError).
    exact (parse_each_invalid items item x Hin Hbad).
  - intros req_body Hshape. apply (post_locations_sync_invalid _ _ _ ZodError).
    destruct req_body; try reflexivity. exfalso. eapply Hshape. reflexivity.
Qed.

(** A valid report followed by one without longitude. *)
Lemma invalid_batch_stores_nothing_witness :
  let good := report "5" "5" "2024-05-01T10:00:00.000Z" in
  let bad := JObj [("deviceId", JNum 1); ("latitude", JStr "5")]%string in
  insertLocationSchema bad = Throw ZodError
  /\ snd (post_locations_sync (pg := strict) 36000000 (JArr [good; bad])
                              (server_with (square 10)))
     = server_with (square 10).
Proof.
  cbv zeta. split; [reflexivity|].
  rewrite (proj1 (invalid_batch_stores_nothing strict 36000000 (server_with (square 10)))
                 _ (JObj [("deviceId", JNum 1); ("latitude", JStr "5")]%string) ZodError).
  - reflexivity.
  - right. left. reflexivity.
  - reflexivity.
Defined.

(** X8: a batch of n reports that the schema and the database accept is
    stored under the next n values of the sequence, in the order submitted;
    the sequence advances by n, the answer counts n rows, and one
    [offline_sync] message with that count is broadcast -- also for the
    empty batch, which stores nothing.  A batch with a row the database
    refuses is answered 500: no row of it is stored, the rows that fit
    included, and nothing is broadcast. *)
Theorem batch_rows_are_numbered (pg : Database) (now : Z) (req_body : json) (s : Server)
        (locationsData : list InsertLocation.t) :
  insertLocationSchema_array req_body = Return locationsData ->
  let run := post_locations_sync now req_body s in
  let n := List.length locationsData in
  match all_locations_values locationsData with
  | Some values =>
      exists rows,
        fst run = Return {| status := 200; body := synced_json n rows |}
        /\ locations (db (snd run)) = locations (db s) ++ rows
        /\ List.length rows = n
        /\ map Location.id rows = consecutive (locations_id_seq (db s)) n
        /\ locations_id_seq (db (snd run)) = (locations_id_seq (db s) + Z.of_nat n)%Z
        /\ sent (snd run) = sent s ++ [offline_sync n]
  | None =>
      fst run = Return {| status := 500; body := message_json "Failed to sync locations" |}
      /\ locations (db (snd run)) = locations (db s)
      /\ sent (snd run) = sent s
  end.
Proof.
  intros Hparse run n. subst run n.
  destruct (all_locations_values locationsData) as [values|] eqn:Hvalues.
  - destruct (post_locations_sync_valid now req_body s locationsData values Hparse Hvalues)
      as (Hresponse & Hlocations & Hseq & _ & _ & _ & Hsent).
    pose proof (all_locations_values_length _ _ Hvalues) as Hlength.
    eexists. split; [exact Hresponse|]. split; [exact Hlocations|].
    split; [rewrite location_rows_length; exact Hlength|].
    split; [rewrite location_rows_ids, Hlength; reflexivity|]. split; assumption.
  - rewrite (post_locations_sync_refused now req_body s locationsData Hparse Hvalues).
    repeat split.
Qed.

(** Two reports; the empty batch; and a report that fits before one at
    latitude 100. *)
Lemma batch_rows_are_numbered_witness :
  let two := JArr [report "5" "5" "2024-05-01T10:00:00.000Z";
                   report "6" "5" "2024-05-01T10:00:30.000Z"] in
  let beyond := JArr [report "5" "5" "2024-05-01T10:00:00.000Z";
                      report "100" "5" "2024-05-01T10:00:30.000Z"] in
  (exists locationsData, insertLocationSchema_array two = Return locationsData)
  /\ map Location.id
         (locations (db (snd (post_locations_sync (pg := strict) 36000000 two
                                                  (server_with (square 10))))))
     = [1; 2]%Z
  /\ sent (snd (post_locations_sync (pg := strict) 36000000 (JArr [])
                                    (server_with (square 10))))
     = [offline_sync 0]
  /\ (exists locationsData, insertLocationSchema_array beyond = Return locationsData)
  /\ locations (db (snd (post_locations_sync (pg := strict) 36000000 beyond
                                             (server_with (square 10))))) = [].
Proof.
  cbv zeta. split; [eexists; reflexivity|].
  pose proof (batch_rows_are_numbered strict 36000000
                (JArr [report "5" "5" "2024-05-01T10:00:00.000Z";
                       report "6" "5" "2024-05-01T10:00:30.000Z"])
                (server_with (square 10)) _ eq_refl) as Htwo.
  pose proof (batch_rows_are_numbered strict 36000000 (JArr []) (server_with (square 10))
                _ eq_refl) as Hempty.
  pose proof (batch_rows_are_numbered strict 36000000
                (JArr [report "5" "5" "2024-05-01T10:00:00.000Z";
                       report "100" "5" "2024-05-01T10:00:30.000Z"])
                (server_with (square 10)) _ eq_refl) as Hbeyond.
  cbv zeta in Htwo, Hempty, Hbeyond.
  destruct Htwo as (rows & _ & Hlocations & _ & Hids & _).
  destruct Hempty as (_ & _ & _ & _ & _ & _ & Hsent).
  destruct Hbeyond as (_ & Hnone & _).
  split; [rewrite Hlocations, map_app, Hids; reflexivity|].
  split; [exact Hsent|]. split; [eexists; reflexivity|exact Hnone].
Defined.

(** ** The insert schema *)

Lemma field_other key k v before after :
  key <> k -> field key (before ++ (k, v) :: after) = field key (before ++ after).
Proof.
  intros Hk. induction before as [|[k' v'] before IH].
  - cbn [app field]. destruct (field key after); [reflexivity|].
    destruct (String.eqb_spec key k); [contradiction|reflexivity].
  - cbn [app field]. rewrite IH. reflexivity.
Qed.

(** X9: the schema reads five keys and drops every other one: a key that
    is none of [deviceId], [latitude], [longitude], [accuracy] and
    [isOfflineRecord] changes neither what the schema returns nor what
    [POST /api/locations] does, so a client cannot set [id], [timestamp] or
    [syncedAt]. *)
Theorem unknown_keys_are_dropped (rt : Runtime) (pg : Database) (now : Z) (s : Server)
        (before after : list (string * json)) (k : string) (v : json) :
  ~ In k ["deviceId"; "latitude"; "longitude"; "accuracy"; "isOfflineRecord"]%string ->
  insertLocationSchema (JObj (before ++ (k, v) :: after)) =
  insertLocationSchema (JObj (before ++ after))
  /\ post_locations now (JObj (before ++ (k, v) :: after)) s =
     post_locations now (JObj (before ++ after)) s.
Proof.
  intros Hk.
  assert (H : insertLocationSchema (JObj (before ++ (k, v) :: after)) =
              insertLocationSchema (JObj (before ++ after))).
  { unfold insertLocationSchema.
    rewrite !(field_other _ k v before after); [reflexivity| | | | |];
      intros <-; apply Hk; cbn; auto 6. }
  split; [exact H|]. unfold post_locations. rewrite H. reflexivity.
Qed.

(** A report that tries to set its own timestamp. *)
Lemma unknown_keys_are_dropped_witness :
  ~ In "timestamp"%string
       ["deviceId"; "latitude"; "longitude"; "accuracy"; "isOfflineRecord"]%string
  /\ insertLocationSchema (report "5" "5" "1999-01-01T00:00:00.000Z") =
     insertLocationSchema
       (JObj [("deviceId", JNum 1); ("latitude", JStr "5"); ("longitude", JStr "5");
              ("accuracy", JNum 5); ("isOfflineRecord", JBool false)]%string).
Proof.
  assert (Hk : ~ In "timestamp"%string
                    ["deviceId"; "latitude"; "longitude"; "accuracy";
                     "isOfflineRecord"]%string).
  { cbn. intros [H|[H|[H|[H|[H|[]]]]]]; discriminate. }
  split; [exact Hk|].
  exact (proj1 (unknown_keys_are_dropped flat strict 0 (server_with (square 10))
                 [("deviceId", JNum 1); ("latitude", JStr "5"); ("longitude", JStr "5");
                  ("accuracy", JNum 5); ("isOfflineRecord", JBool false)]%string
                 [] "timestamp" (JStr "1999-01-01T00:00:00.000Z") Hk)).
Defined.

(** ** Battery updates and the device table *)

(** Whatever the body, the devices are as they were or have the update. *)
Lemma put_device_battery_cases now id req_body s :
  db (snd (put_device_battery now id req_body s)) = db s
  \/ exists level,
       devices (db (snd (put_device_battery now id req_body s))) =
       charged now id level (devices (db s)).
Proof.
  cbv [put_device_battery try_catch bind eval call ret broadcast res_json res_status
       updateDeviceBattery].
  destruct (destructure "batteryLevel" req_body) as [[[| | level | | |]|]|x];
    try (left; reflexivity).
  destruct ((level <? 0)%float || (100 <? level)%float); [left; reflexivity|].
  destruct (integer id); [|left; reflexivity].
  destruct (integer level) as [kept|]; [|left; reflexivity].
  right. exists kept. reflexivity.
Qed.

Lemma charged_twice now1 now2 id level1 level2 devices :
  charged now2 id level2 (charged now1 id level1 devices) = charged now2 id level2 devices.
Proof.
  unfold charged. rewrite map_map. apply map_ext. intros d.
  destruct (device_is id d) eqn:Hd; [|rewrite Hd; reflexivity].
  unfold device_is in *. cbn [Device.id]. rewrite Hd. reflexivity.
Qed.

(** An answer of 200 comes from a level and an id the database accepts. *)
Lemma put_device_battery_ok now id req_body s response :
  fst (put_device_battery now id req_body s) = Return response ->
  status response = 200%Z ->
  exists level kept,
    destructure "batteryLevel" req_body = Return (Some (JNum level))
    /\ ((level <? 0)%float || (100 <? level)%float) = false
    /\ integer id <> None /\ integer level = Some kept.
Proof.
  cbv [put_device_battery try_catch bind eval call ret broadcast res_json res_status
       updateDeviceBattery].
  destruct (destructure "batteryLevel" req_body) as [[[| | level | | |]|]|x];
    try (cbn; intros [= <-]; discriminate).
  destruct ((level <? 0)%float || (100 <? level)%float) eqn:Hrange;
    [cbn; intros [= <-]; discriminate|].
  destruct (integer id) eqn:Hid; [|cbn; intros [= <-]; discriminate].
  destruct (integer level) as [kept|] eqn:Hkept; [|cbn; intros [= <-]; discriminate].
  intros _ _. exists level, kept. repeat split; congruence.
Qed.

(** X10: the last battery update wins: when a request is answered 200, the
    answer and the database afterwards are the same whether or not an
    earlier request for the same id, with whatever body, was handled
    before. *)
Theorem last_battery_update_wins (now1 now2 : Z) (id : float) (earlier req_body : json)
        (s : Server) (response : Response) :
  fst (put_device_battery now2 id req_body s) = Return response ->
  status response = 200%Z ->
  fst (put_device_battery now2 id req_body (snd (put_device_battery now1 id earlier s)))
  = Return response
  /\ db (snd (put_device_battery now2 id req_body
                (snd (put_device_battery now1 id earlier s)))) =
     db (snd (put_device_battery now2 id req_body s)).
Proof.
  intros Hrun Hok.
  destruct (put_device_battery_ok now2 id req_body s response Hrun Hok)
    as (level & kept & Hlevel & Hrange & Hid & Hkept).
  destruct (put_device_battery_valid now2 id req_body s level kept Hlevel Hrange Hid Hkept)
    as [Hlater _].
  destruct (put_device_battery_valid now2 id req_body
              (snd (put_device_battery now1 id earlier s)) level kept Hlevel Hrange Hid Hkept)
    as [Hboth _].
  rewrite Hlater in Hrun. rewrite Hboth, Hlater. cbn [fst snd db] in *.
  split; [exact Hrun|].
  destruct (put_device_battery_tables now1 id earlier s) as (He & Hl & Hg & Hes & Hls).
  cbv zeta in He, Hl, Hg, Hes, Hls. rewrite He, Hl, Hg, Hes, Hls. f_equal.
  destruct (put_device_battery_cases now1 id earlier s) as [->|[level1 ->]];
    [reflexivity|apply charged_twice].
Qed.

(** Level 80 after level 50. *)
Lemma last_battery_update_wins_witness :
  let later := JObj [("batteryLevel", JNum 80)]%string in
  let earlier := JObj [("batteryLevel", JNum 50)]%string in
  fst (put_device_battery 36001000 1 later (server_with (square 10)))
  = Return {| status := 200; body := success_json |}
  /\ map Device.batteryLevel
         (devices (db (snd (put_device_battery 36001000 1 later
                              (snd (put_device_battery 36000000 1 earlier
                                                       (server_with (square 10))))))))
     = [Some 80%float].
Proof.
  cbv zeta. split; [reflexivity|].
  rewrite (proj2 (last_battery_update_wins 36000000 36001000 1
                    (JObj [("batteryLevel", JNum 50)]%string)
                    (JObj [("batteryLevel", JNum 80)]%string)
                    (server_with (square 10)) _ eq_refl eq_refl)).
  reflexivity.
Defined.

Lemma find_charged now id level devices :
  find (device_is id) (charged now id level devices) =
  match find (device_is id) devices with
  | Some d =>
      Some {| Device.id := Device.id d;
              Device.name := Device.name d;
              Device.deviceId := Device.deviceId d;
              Device.userId := Device.userId d;
              Device.isActive := Device.isActive d;
              Device.batteryLevel := Some level;
              Device.lastSeen := Some now;
              Device.createdAt := Device.createdAt d |}
  | None => None
  end.
Proof.
  unfold charged.
  induction devices as [|d rest IH]; [reflexivity|]. cbn [map find].
  destruct (device_is id d) eqn:Hd.
  - unfold device_is at 1. cbn [Device.id]. fold (device_is id d). rewrite Hd. reflexivity.
  - rewrite Hd. exact IH.
Qed.

Lemma map_unmatched {A} (p : A -> bool) (f : A -> A) (rows : list A) :
  find p rows = None -> map (fun r => if p r then f r else r) rows = rows.
Proof.
  induction rows as [|r rest IH]; [reflexivity|]. cbn [find map].
  destruct (p r); [discriminate|]. intros H. rewrite (IH H). reflexivity.
Qed.

(** X11: after a battery update with a level in [0, 100] that the database
    accepts, as it accepts the id, the answer is 200, the update is
    broadcast, and [getDevice] for the same id returns the device it
    returned before with the level as the column holds it and the time of
    the request as [lastSeen], everything else kept.  When it returned
    nothing before, the devices are unchanged.  When the database refuses
    the level or the id, the answer is 500 and nothing is changed or sent. *)
Theorem battery_update_is_read_back (now : Z) (id : float) (req_body : json) (s : Server)
        (level : float) :
  destructure "batteryLevel" req_body = Return (Some (JNum level)) ->
  ((level <? 0)%float || (100 <? level)%float) = false ->
  let run := put_device_battery now id req_body s in
  match integer id, integer level with
  | Some _, Some kept =>
      fst run = Return {| status := 200; body := success_json |}
      /\ sent (snd run) = sent s ++ [Routes.battery_update id level]
      /\ kept = (if (level =? 0)%float then 0%float else level)
      /\ getDevice id (db (snd run)) =
         match getDevice id (db s) with
         | Some d =>
             Some {| Device.id := Device.id d;
                     Device.name := Device.name d;
                     Device.deviceId := Device.deviceId d;
                     Device.userId := Device.userId d;
                     Device.isActive := Device.isActive d;
                     Device.batteryLevel := Some kept;
                     Device.lastSeen := Some now;
                     Device.createdAt := Device.createdAt d |}
         | None => None
         end
      /\ (getDevice id (db s) = None -> devices (db (snd run)) = devices (db s))
  | _, _ =>
      run = (Return {| status := 500; body := message_json "Failed to update battery" |}, s)
  end.
Proof.
  intros Hlevel Hrange run. subst run.
  destruct (integer id) as [kept_id|] eqn:Hid; [destruct (integer level) as [kept|] eqn:Hkept|].
  - destruct (put_device_battery_valid now id req_body s level kept Hlevel Hrange)
      as [Hrun _]; [congruence|assumption|].
    rewrite Hrun. cbn [fst snd db sent devices].
    split; [reflexivity|]. split; [reflexivity|].
    split; [exact (proj2 (proj2 (integer_held level kept Hkept)))|].
    unfold getDevice. cbn [devices]. split.
    + apply find_charged.
    + intros Hnone. apply map_unmatched. exact Hnone.
  - exact (put_device_battery_refused now id req_body s level Hlevel Hrange (or_intror Hkept)).
  - exact (put_device_battery_refused now id req_body s level Hlevel Hrange (or_introl Hid)).
Qed.

(** Device 1 at level 50; device 9, which does not exist; and level 50.5,
    which an [integer] column does not hold. *)
Lemma battery_update_is_read_back_witness :
  let req_body := JObj [("batteryLevel", JNum 50)]%string in
  let half := JObj [("batteryLevel", JNum 50.5)]%string in
  destructure "batteryLevel" req_body = Return (Some (JNum 50))
  /\ ((50 <? 0)%float || (100 <? 50)%float) = false
  /\ option_map Device.batteryLevel
       (getDevice 1 (db (snd (put_device_battery 36000000 1 req_body
                                                 (server_with (square 10))))))
     = Some (Some 50%float)
  /\ getDevice 9 (db (server_with (square 10))) = None
  /\ devices (db (snd (put_device_battery 36000000 9 req_body (server_with (square 10)))))
     = devices (db (server_with (square 10)))
  /\ put_device_battery 36000000 1 half (server_with (square 10))
     = (Return {| status := 500; body := message_json "Failed to update battery" |},
        server_with (square 10)).
Proof.
  cbv zeta. split; [reflexivity|]. split; [reflexivity|].
  pose proof (battery_update_is_read_back 36000000 1 (JObj [("batteryLevel", JNum 50)]%string)
                (server_with (square 10)) 50 eq_refl eq_refl) as Hread.
  pose proof (battery_update_is_read_back 36000000 9 (JObj [("batteryLevel", JNum 50)]%string)
                (server_with (square 10)) 50 eq_refl eq_refl) as Hnone.
  pose proof (battery_update_is_read_back 36000000 1
                (JObj [("batteryLevel", JNum 50.5)]%string)
                (server_with (square 10)) 50.5 eq_refl eq_refl) as Hhalf.
  cbv zeta in Hread, Hnone, Hhalf.
  destruct Hread as (_ & _ & _ & Hread & _). destruct Hnone as (_ & _ & _ & _ & Hnone).
  split; [rewrite Hread; reflexivity|]. split; [reflexivity|].
  split; [apply Hnone; reflexivity|exact Hhalf].
Defined.

(** * The queries *)

Section Ordering.
Context {A : Type} (key : A -> Z).

Lemma insert_desc_permutation row sorted :
  Permutation (insert_desc key row sorted) (row :: sorted).
Proof.
  induction sorted as [|next rest IH]; cbn [insert_desc]; [reflexivity|].
  destruct (key next <=? key row)%Z; [reflexivity|].
  rewrite IH. apply perm_swap.
Qed.

Lemma order_by_desc_permutation rows : Permutation (order_by_desc key rows) rows.
Proof.
  induction rows as [|row rest IH]; [reflexivity|].
  cbn [order_by_desc fold_right]. fold (order_by_desc key rest).
  rewrite insert_desc_permutation, IH. reflexivity.
Qed.

Lemma insert_desc_sorted row sorted :
  newest_first key sorted -> newest_first key (insert_desc key row sorted).
Proof.
  unfold newest_first. induction sorted as [|next rest IH]; intros Hsorted; cbn [insert_desc].
  - constructor; constructor.
  - apply StronglySorted_inv in Hsorted. destruct Hsorted as [Hrest Hnext].
    destruct (key next <=? key row)%Z eqn:Hle.
    + apply Z.leb_le in Hle. constructor; [constructor; assumption|].
      constructor; [assumption|].
      eapply Forall_impl; [|exact Hnext]. cbn. intros a Ha. lia.
    + apply Z.leb_gt in Hle. constructor; [apply IH; assumption|].
      apply Forall_forall. intros a Ha.
      apply (Permutation_in _ (insert_desc_permutation row rest)) in Ha.
      destruct Ha as [<-|Ha]; [lia|].
      exact (proj1 (Forall_forall _ _) Hnext a Ha).
Qed.

Lemma order_by_desc_sorted rows : newest_first key (order_by_desc key rows).
Proof.
  induction rows as [|row rest IH]; [constructor|].
  cbn [order_by_desc fold_right]. apply insert_desc_sorted. exact IH.
Qed.

Lemma order_by_desc_In rows row : In row (order_by_desc key rows) <-> In row rows.
Proof.
  split; apply Permutation_in; [|symmetry]; apply order_by_desc_permutation.
Qed.

Lemma order_by_desc_length rows : List.length (order_by_desc key rows) = List.length rows.
Proof. apply Permutation_length, order_by_desc_permutation. Qed.

Lemma firstn_incl n (rows : list A) (row : A) : In row (firstn n rows) -> In row rows.
Proof.
  intros Hin. rewrite <- (firstn_skipn n rows). apply in_or_app. left. assumption.
Qed.

(** The first rows of a list that is newest first are newest first, and no
    row left out is newer than a row kept. *)
Lemma firstn_newest n : forall rows,
  newest_first key rows ->
  newest_first key (firstn n rows)
  /\ forall kept left, In kept (firstn n rows) -> In left (skipn n rows) ->
                       (key left <= key kept)%Z.
Proof.
  unfold newest_first.
  induction n as [|n IH]; intros rows Hsorted.
  - cbn. split; [constructor|intros kept left []].
  - destruct rows as [|row rest]; [cbn; split; [constructor|intros kept left []]|].
    apply StronglySorted_inv in Hsorted. destruct Hsorted as [Hrest Hrow].
    destruct (IH rest Hrest) as [Hkept Hleft]. cbn [firstn skipn]. split.
    + constructor; [assumption|].
      apply Forall_forall. intros a Ha. apply firstn_incl in Ha.
      exact (proj1 (Forall_forall _ _) Hrow a Ha).
    + intros kept left [<-|Hin] Hout; [|exact (Hleft kept left Hin Hout)].
      apply (proj1 (Forall_forall _ _) Hrow left).
      rewrite <- (firstn_skipn n rest). apply in_or_app. right. assumption.
Qed.


End Ordering.





(** X14: [getGeofenceEventsByDateRange] returns exactly the stored events
    whose time lies between the two dates, both included, newest first; when
    the first date is after the second it returns nothing. *)
Theorem events_in_date_range (startDate endDate : Z) (db : Tables) :
  let rows := getGeofenceEventsByDateRange startDate endDate db in
  (forall e, In e rows <->
             In e (geofenceEvents db)
             /\ (startDate <= GeofenceEvent.timestamp e <= endDate)%Z)
  /\ newest_first GeofenceEvent.timestamp rows
  /\ ((endDate < startDate)%Z -> rows = []).
Proof.
  cbv zeta. unfold getGeofenceEventsByDateRange.
  assert (Hin : forall e,
             In e (order_by_desc GeofenceEvent.timestamp
                     (filter (fun e => (startDate <=? GeofenceEvent.timestamp e)%Z &&
                                       (GeofenceEvent.timestamp e <=? endDate)%Z)
                             (geofenceEvents db)))
             <-> In e (geofenceEvents db)
                 /\ (startDate <= GeofenceEvent.timestamp e <= endDate)%Z).
  { intros e. rewrite order_by_desc_In, filter_In, Bool.andb_true_iff, !Z.leb_le.
    reflexivity. }
  split; [exact Hin|]. split; [apply order_by_desc_sorted|].
  intros Hempty.
  destruct (order_by_desc _ _) as [|e rest]; [reflexivity|].
  destruct (proj1 (Hin e) (or_introl eq_refl)) as [_ Hrange]. lia.
Qed.

(** An empty range. *)
Lemma events_in_date_range_witness :
  (1 < 2)%Z
  /\ getGeofenceEventsByDateRange 2 1
       (db (snd (post_locations (rt := flat) (pg := strict) 1 (report "5" "5" "a")
                                (server_with (square 10))))) = [].
Proof.
  split; [lia|].
  apply (proj2 (proj2 (events_in_date_range 2 1 _))). lia.
Defined.

Lemma joined_In (db : Tables) (r : Recent) :
  In r (joined db) <->
  In (event r) (geofenceEvents db)
  /\ In (device r) (devices db)
  /\ device_is (GeofenceEvent.deviceId (event r)) (device r) = true
  /\ In (geofence r) (geofences db)
  /\ GeofenceEvent.geofenceId (event r) = Geofence.id (geofence r).
Proof.
  unfold joined. rewrite in_flat_map. split.
  - intros (e & He & Hr). apply in_flat_map in Hr. destruct Hr as (d & Hd & Hr).
    apply in_map_iff in Hr. destruct Hr as (g & <- & Hg).
    apply filter_In in Hd. apply filter_In in Hg. cbn [event device geofence].
    destruct Hd as [Hd Hdevice]. destruct Hg as [Hg Hid]. apply Z.eqb_eq in Hid. auto.
  - intros (He & Hd & Hdevice & Hg & Hid). exists (event r). split; [assumption|].
    apply in_flat_map. exists (device r). split; [apply filter_In; auto|].
    apply in_map_iff. exists (geofence r). split; [destruct r; reflexivity|].
    apply filter_In. split; [assumption|]. apply Z.eqb_eq. assumption.
Qed.

(** X15: [getRecentGeofenceEvents] returns at most [limit] rows, 50 when no
    limit is given, newest first.  Each row is a stored event together with
    a stored device and a stored geofence of the event's ids, so an event
    whose device or geofence is gone, a deleted geofence for one, is not
    listed; and when the joined rows are no more than [limit], every event
    that still has its device and its geofence is listed. *)
Theorem recent_events_have_device_and_geofence (limit : option nat) (db : Tables) :
  let rows := getRecentGeofenceEvents limit db in
  (List.length rows <= or_default limit 50)%nat
  /\ newest_first (fun r => GeofenceEvent.timestamp (event r)) rows
  /\ (forall r, In r rows ->
                In (event r) (geofenceEvents db)
                /\ In (device r) (devices db)
                /\ device_is (GeofenceEvent.deviceId (event r)) (device r) = true
                /\ In (geofence r) (geofences db)
                /\ GeofenceEvent.geofenceId (event r) = Geofence.id (geofence r))
  /\ (forall e,
         (forall g, In g (geofences db) -> Geofence.id g <> GeofenceEvent.geofenceId e) ->
         forall r, In r rows -> event r <> e)
  /\ ((List.length (joined db) <= or_default limit 50)%nat ->
      forall e d g,
        In e (geofenceEvents db) ->
        In d (devices db) -> device_is (GeofenceEvent.deviceId e) d = true ->
        In g (geofences db) -> GeofenceEvent.geofenceId e = Geofence.id g ->
        In {| event := e; device := d; geofence := g |} rows).
Proof.
  cbv zeta. unfold getRecentGeofenceEvents.
  set (key := fun r => GeofenceEvent.timestamp (event r)). set (n := or_default limit 50).
  assert (Hrow : forall r, In r (firstn n (order_by_desc key (joined db))) ->
                           In r (joined db)).
  { intros r Hin. apply firstn_incl in Hin.
    exact (proj1 (order_by_desc_In key (joined db) r) Hin). }
  split; [apply firstn_le_length|]. split; [|split; [|split]].
  - apply (firstn_newest key n), order_by_desc_sorted.
  - intros r Hin. apply joined_In, Hrow, Hin.
  - intros e Hgone r Hin <-. apply Hrow, joined_In in Hin.
    destruct Hin as (_ & _ & _ & Hg & Hid). apply (Hgone _ Hg). symmetry. exact Hid.
  - intros Hfew e d g He Hd Hdevice Hg Hid. rewrite firstn_all2.
    + apply order_by_desc_In, joined_In. cbn [event device geofence]. auto.
    + rewrite order_by_desc_length. exact Hfew.
Qed.

(** The entry of device 1 in the example's geofence. *)
Lemma recent_events_have_device_and_geofence_witness :
  let db1 := db (snd (post_locations (rt := flat) (pg := strict) 36000000
                                     (report "5" "5" "a") (server_with (square 10)))) in
  (List.length (joined db1) <= 50)%nat
  /\ map (fun r => (Device.name (device r), Geofence.name (geofence r),
                    GeofenceEvent.eventType (event r)))
         (getRecentGeofenceEvents None db1)
     = [("tracker", "yard", "entry")]%string
  /\ In {| event := entry_event (pg := strict) 1 36000000
                      {| InsertLocation.deviceId := 1; InsertLocation.latitude := "5";
                         InsertLocation.longitude := "5"; InsertLocation.accuracy := Some 5%float;
                         InsertLocation.isOfflineRecord := Some false |}
                      (fence (square 10));
           device := hd tracker (devices db1);
           geofence := fence (square 10) |}
        (getRecentGeofenceEvents None db1).
Proof.
  cbv zeta.
  assert (Hfew : (List.length
                    (joined (db (snd (post_locations (rt := flat) (pg := strict) 36000000
                                        (report "5" "5" "a")
                                        (server_with (square 10)))))) <= 50)%nat).
  { apply Nat.leb_le. vm_compute. reflexivity. }
  split; [exact Hfew|]. split; [vm_compute; reflexivity|].
  destruct (recent_events_have_device_and_geofence None
              (db (snd (post_locations (rt := flat) (pg := strict) 36000000 (report "5" "5" "a")
                                       (server_with (square 10))))))
    as (_ & _ & _ & _ & Hall).
  apply (Hall Hfew); vm_compute; try reflexivity; left; reflexivity.
Defined.



(** ** Geofences *)

(** X17: [getAllGeofences] lists every stored geofence, switched off and
    expired ones included, newest first.  [getActiveGeofences] selects those
    of them that are switched on and have no expiry time or one after the
    time of the request; a geofence that is active at some time was active
    at every earlier time. *)
Theorem active_geofences_are_listed (now : Z) (tables : Tables) :
  Permutation (getAllGeofences tables) (geofences tables)
  /\ newest_first Geofence.createdAt (getAllGeofences tables)
  /\ (forall g, In g (getActiveGeofences now tables) <->
                In g (getAllGeofences tables)
                /\ Geofence.isActive g = true
                /\ forall expires, Geofence.expiresAt g = Some expires -> (now < expires)%Z)
  /\ (forall later g,
         (now <= later)%Z ->
         In g (getActiveGeofences later tables) -> In g (getActiveGeofences now tables)).
Proof.
  unfold getAllGeofences.
  assert (Hactive : forall t g,
             In g (getActiveGeofences t tables) <->
             In g (geofences tables)
             /\ Geofence.isActive g = true
             /\ forall expires, Geofence.expiresAt g = Some expires -> (t < expires)%Z).
  { intros t g. unfold getActiveGeofences. rewrite filter_In, Bool.andb_true_iff.
    destruct (Geofence.expiresAt g) as [expires|].
    - rewrite Z.ltb_lt. split.
      + intros (Hin & Hon & Hlive). repeat split; try assumption.
        intros e He. injection He as <-. assumption.
      + intros (Hin & Hon & Hlive). repeat split; try assumption. apply Hlive. reflexivity.
    - split; intros (Hin & Hon & _); repeat split; try assumption. discriminate. }
  split; [apply order_by_desc_permutation|].
  split; [apply order_by_desc_sorted|]. split.
  - intros g. rewrite order_by_desc_In. apply Hactive.
  - intros later g Hlater Hin. apply Hactive in Hin. apply Hactive.
    destruct Hin as (Hin & Hon & Hlive). repeat split; try assumption.
    intros expires He. specialize (Hlive expires He). lia.
Qed.

(** The example's geofence, active at time 2, at time 1. *)
Lemma active_geofences_are_listed_witness :
  (1 <= 2)%Z
  /\ In (fence (square 10)) (getActiveGeofences 2 (db (server_with (square 10))))
  /\ In (fence (square 10)) (getActiveGeofences 1 (db (server_with (square 10)))).
Proof.
  assert (Hlater : In (fence (square 10)) (getActiveGeofences 2 (db (server_with (square 10))))).
  { left. reflexivity. }
  split; [lia|]. split; [exact Hlater|].
  apply (proj2 (proj2 (proj2 (active_geofences_are_listed 1 (db (server_with (square 10))))))
           2%Z); [lia|exact Hlater].
Defined.







(** * More on the containment test *)

Section Order.
Local Open Scope float_scope.

(** [<=] on doubles is transitive. *)
Lemma SFcompare_trans_le x y z :
  SFleb x y = true -> SFleb y z = true -> SFleb x z = true.
Proof.
  unfold SFleb.
  destruct x as [sx|sx| |sx mx ex], y as [sy|sy| |sy my ey], z as [sz|sz| |sz mz ez];
    cbn [SFcompare]; try discriminate; try reflexivity;
    try destruct sx; try destruct sy; try destruct sz;
    try discriminate; try reflexivity.
  all: change (PosDef.Pos.compare_cont Eq ?a ?b) with (Pos.compare a b).
  all: destruct (Z.compare_spec ex ey), (Z.compare_spec ey ez), (Z.compare_spec ex ez);
    try lia; try discriminate; try reflexivity.
  all: destruct (Pos.compare_spec mx my), (Pos.compare_spec my mz), (Pos.compare_spec mx mz);
    cbn [CompOpp]; try discriminate; try reflexivity; lia.
Qed.

Lemma SFcompare_trans_lt x y z :
  SFltb x y = true -> SFleb y z = true -> SFltb x z = true.
Proof.
  unfold SFleb, SFltb.
  destruct x as [sx|sx| |sx mx ex], y as [sy|sy| |sy my ey], z as [sz|sz| |sz mz ez];
    cbn [SFcompare]; try discriminate; try reflexivity;
    try destruct sx; try destruct sy; try destruct sz;
    try discriminate; try reflexivity.
  all: change (PosDef.Pos.compare_cont Eq ?a ?b) with (Pos.compare a b).
  all: destruct (Z.compare_spec ex ey), (Z.compare_spec ey ez), (Z.compare_spec ex ez);
    try lia; try discriminate; try reflexivity.
  all: destruct (Pos.compare_spec mx my), (Pos.compare_spec my mz), (Pos.compare_spec mx mz);
    cbn [CompOpp]; try discriminate; try reflexivity; lia.
Qed.

Lemma leb_trans x y z : (x <=? y) = true -> (y <=? z) = true -> (x <=? z) = true.
Proof. rewrite !leb_spec. apply SFcompare_trans_le. Qed.

Lemma ltb_leb_trans x y z : (x <? y) = true -> (y <=? z) = true -> (x <? z) = true.
Proof. rewrite !leb_spec, !ltb_spec. apply SFcompare_trans_lt. Qed.

(** A comparison with NaN on the left is false. *)
Lemma ltb_nan_l x y : is_nan x = true -> (x <? y) = false.
Proof.
  intros H. apply is_nan_spec in H. rewrite ltb_spec, H. reflexivity.
Qed.

End Order.

(** X19: circles grow with their radius: a point inside the circle of a
    positive radius is inside the circle of every radius at least as large,
    around the same centre. *)
Theorem larger_circle_contains (rt : Runtime) (p : point) (coordinates : list float)
        (smaller larger : float) :
  (0 <? smaller)%float = true -> (smaller <=? larger)%float = true ->
  isPointInGeofence p (Point coordinates (Some smaller)) = Return true ->
  isPointInGeofence p (Point coordinates (Some larger)) = Return true.
Proof.
  intros Hpos Hle. cbn [isPointInGeofence].
  rewrite (positive_truthy smaller Hpos).
  rewrite (positive_truthy larger (ltb_leb_trans _ _ _ Hpos Hle)).
  intros Hin. injection Hin as Hin. f_equal. exact (leb_trans _ _ _ Hin Hle).
Qed.

(** The centre, in the circles of 1000 m and of 2000 m. *)
Lemma larger_circle_contains_witness :
  (0 <? 1000)%float = true /\ (1000 <=? 2000)%float = true
  /\ isPointInGeofence (rt := flat) {| lat := 0; lng := 0 |}
                        (Point [0; 0]%float (Some 1000%float)) = Return true
  /\ isPointInGeofence (rt := flat) {| lat := 0; lng := 0 |}
                        (Point [0; 0]%float (Some 2000%float)) = Return true.
Proof.
  split; [reflexivity|]. split; [reflexivity|]. split; [reflexivity|].
  exact (larger_circle_contains flat {| lat := 0; lng := 0 |} [0; 0]%float 1000 2000
                                eq_refl eq_refl eq_refl).
Defined.

(** X20: the distance [getDistance] computes is never below zero, on a
    host whose [Math.atan2] keeps the angle of two square roots in the first
    quadrant; from a point with finite coordinates to itself it is [+0]. *)
Theorem distance_is_never_negative (rt : Runtime) (p c : point) :
  conforming rt ->
  (getDistance p c <? 0)%float = false
  /\ (is_finite (lat c) = true -> is_finite (lng c) = true ->
      is_finite (Math_cos (toRad (lat c))) = true ->
      getDistance c c = 0%float).
Proof.
  intros Hrt. split; [apply getDistance_nonneg; assumption|].
  apply getDistance_centre. assumption.
Qed.

(** Half a degree of longitude along the equator. *)
Lemma distance_is_never_negative_witness :
  conforming flat
  /\ (getDistance (rt := flat) {| lat := 0; lng := 0 |} {| lat := 0; lng := 0.5 |} <? 0)%float
     = false.
Proof.
  split; [exact flat_conforming|].
  exact (proj1 (distance_is_never_negative flat {| lat := 0; lng := 0 |}
                  {| lat := 0; lng := 0.5 |} flat_conforming)).
Defined.

Section Rings.
Local Open Scope float_scope.

Lemma last_default {A} (l : list A) (a d d' : A) : last (a :: l) d = last (a :: l) d'.
Proof.
  revert a. induction l as [|b l IH]; intros a; [reflexivity|].
  change (last (b :: l) d = last (b :: l) d'). apply IH.
Qed.

Lemma last_cons {A} (l : list A) (a d : A) : last (a :: l) d = last l a.
Proof.
  destruct l as [|b l]; [reflexivity|].
  change (last (b :: l) d = last (b :: l) a). apply last_default.
Qed.

(** The edges of a ring with one more vertex at its end. *)
Lemma edges_from_app ring : forall previous v,
  Spec.edges_from previous (ring ++ [v]) =
  Spec.edges_from previous ring ++ [(v, last ring previous)].
Proof.
  induction ring as [|w ring IH]; intros previous v; [reflexivity|].
  cbn [app Spec.edges_from]. rewrite IH, (last_cons ring w previous). reflexivity.
Qed.

Lemma crosses_self p v : Spec.crosses p v v = false.
Proof. unfold Spec.crosses. rewrite Bool.eqb_reflx. reflexivity. Qed.

(** Both vertices of an edge are vertices of the ring, or the one given as
    the predecessor of the first. *)
Lemma edges_from_In ring : forall previous vi vj,
  In (vi, vj) (Spec.edges_from previous ring) ->
  In vi ring /\ (vj = previous \/ In vj ring).
Proof.
  induction ring as [|w ring IH]; intros previous vi vj; cbn [Spec.edges_from]; [intros []|].
  intros [Heq|Hin].
  - injection Heq as <- <-. split; [left; reflexivity|left; reflexivity].
  - destruct (IH _ _ _ Hin) as [Hi [->|Hj]].
    + split; [right; assumption|right; left; reflexivity].
    + split; [right; assumption|right; right; assumption].
Qed.

Lemma edges_In ring vi vj :
  In (vi, vj) (Spec.edges ring) -> In vi ring /\ In vj ring.
Proof.
  unfold Spec.edges. intros Hin. destruct (edges_from_In _ _ _ _ Hin) as [Hi [->|Hj]]; auto.
  split; [assumption|]. destruct ring as [|w ring]; [destruct Hi|].
  rewrite last_cons. clear. revert w. induction ring as [|x ring IH]; intros w.
  - left; reflexivity.
  - right. rewrite last_cons. apply IH.
Qed.

Lemma ray_casting_no_crossing p ring :
  (forall vi vj, In vi ring -> In vj ring -> Spec.crosses p vi vj = false) ->
  Spec.ray_casting p ring = false.
Proof.
  intros Hnone. unfold Spec.ray_casting.
  assert (H : forall e, In e (Spec.edges ring) -> Spec.crosses p (fst e) (snd e) = false).
  { intros [vi vj] Hin. destruct (edges_In _ _ _ Hin). apply Hnone; assumption. }
  induction (Spec.edges ring) as [|e es IH]; [reflexivity|].
  cbn [filter]. rewrite (H e (or_introl eq_refl)). apply IH.
  intros e' He'. apply H. right. assumption.
Qed.

(** Repeating the first vertex at the end adds an edge from a vertex to
    itself, which nothing crosses. *)
Lemma ray_casting_closed p v ring :
  Spec.ray_casting p (v :: ring ++ [v]) = Spec.ray_casting p (v :: ring).
Proof.
  unfold Spec.ray_casting, Spec.edges.
  rewrite (last_cons (ring ++ [v]) v []), last_last, (last_cons ring v []).
  cbn [Spec.edges_from]. rewrite edges_from_app.
  cbn [filter fst snd]. rewrite crosses_self, filter_app, length_app. cbn [filter fst snd].
  destruct (Spec.crosses p v (last ring v)); cbn [List.length].
  - rewrite Nat.add_1_r. reflexivity.
  - rewrite Nat.add_0_r. reflexivity.
Qed.

(** Starting the ring one vertex later leaves the same edges. *)
Lemma ray_casting_rotated p v ring :
  Spec.ray_casting p (ring ++ [v]) = Spec.ray_casting p (v :: ring).
Proof.
  unfold Spec.ray_casting, Spec.edges.
  rewrite last_last, (last_cons ring v []).
  cbn [Spec.edges_from]. rewrite edges_from_app.
  cbn [filter fst snd]. rewrite filter_app, length_app. cbn [filter fst snd].
  destruct (Spec.crosses p v (last ring v)); cbn [List.length].
  - rewrite Nat.add_1_r. reflexivity.
  - rewrite Nat.add_0_r. reflexivity.
Qed.

End Rings.

(** X21: the polygon test does not depend on how the ring is written
    down: repeating the first vertex at the end, as GeoJSON closes a ring,
    does not change the answer, and neither does starting the ring at its
    next vertex. *)
Theorem ring_start_and_closure (rt : Runtime) (p : point) (v : list float)
        (ring : list (list float)) (rest : list (list (list float))) :
  isPointInGeofence p (Polygon ((v :: ring ++ [v]) :: rest)) =
  isPointInGeofence p (Polygon ((v :: ring) :: rest))
  /\ isPointInGeofence p (Polygon ((ring ++ [v]) :: rest)) =
     isPointInGeofence p (Polygon ((v :: ring) :: rest)).
Proof.
  rewrite !polygon_branch. split; f_equal.
  - cbn [map]. rewrite map_app. cbn [map]. apply ray_casting_closed.
  - rewrite map_app. cbn [map]. apply ray_casting_rotated.
Qed.

(** X22: a point is outside a polygon when the first coordinates of all
    vertices of the ring lie on one side of the point's [lat] (all greater,
    or none greater), and when its [lat] or its [lng] is NaN. *)
Theorem point_beside_ring_is_outside (rt : Runtime) (p : point) (ring : list (list float))
        (rest : list (list (list float))) (side : bool) :
  Forall (fun v => gt (item v 0) (lat p) = side) ring
  \/ is_nan (lat p) = true \/ is_nan (lng p) = true ->
  isPointInGeofence p (Polygon (ring :: rest)) = Return false.
Proof.
  intros Hside. rewrite polygon_branch. f_equal. apply ray_casting_no_crossing.
  intros vi vj Hi Hj. apply in_map_iff in Hi, Hj.
  destruct Hi as (wi & <- & Hi), Hj as (wj & <- & Hj).
  change (negb (Bool.eqb (gt (item wi 0) (lat p)) (gt (item wj 0) (lat p))) &&
          (lng p <? (item wj 1 - item wi 1) * (lat p - item wi 0) / (item wj 0 - item wi 0)
                    + item wi 1)%float = false).
  destruct Hside as [Hside|[Hnan|Hnan]].
  - pose proof (proj1 (Forall_forall _ _) Hside) as H. cbv beta in H.
    rewrite (H wi Hi), (H wj Hj), Bool.eqb_reflx. reflexivity.
  - unfold gt. rewrite !(ltb_nan_l _ _ Hnan). reflexivity.
  - rewrite (ltb_nan_l _ _ Hnan). apply andb_false_r.
Qed.

(** A point beside the example's square. *)
Lemma point_beside_ring_is_outside_witness :
  every_runtime (fun rt =>
    Forall (fun v => gt (item v 0) (lat {| lat := 20; lng := 5 |}) = false)
           [[0; 0]; [10; 0]; [10; 10]; [0; 10]]%float
    /\ isPointInGeofence {| lat := 20; lng := 5 |} (square 10) = Return false).
Proof.
  intros rt.
  assert (H : Forall (fun v => gt (item v 0) (lat {| lat := 20; lng := 5 |}) = false)
                     [[0; 0]; [10; 0]; [10; 10]; [0; 10]]%float).
  { repeat constructor. }
  split; [exact H|].
  exact (point_beside_ring_is_outside rt {| lat := 20; lng := 5 |} _ [] false (or_introl H)).
Defined.
